(** * Memory Match: the game engine of [src/components/memory-game.tsx]

    A shallow embedding of the React component's state, its event
    handlers, the deferred (setTimeout) resolution of a guess and the
    session-storage effects, followed by the properties of the engine.

    Conventions of the embedding.
    - The component state of one render is a record [State]; every
      handler is a closure over the state of the render that created it.
    - Everything outside the component state (pending timers, session
      storage, the console, the calls made to [onComplete]) lives in
      [World].
    - JavaScript numbers are integers or [NaN]: every number the engine
      computes comes from [parseInt], an integer literal, [+ 1] or
      [* 100].  Magnitudes stay far below 2^53, where double arithmetic
      on integers is exact.
    - A thrown exception is a value of [result], not a stuck state. *)

From Stdlib Require Import ZArith Bool Ascii String List Permutation Lia.
From Stdlib Require Import DecimalString.
From stdpp Require Import base option list gmap strings.
Import ListNotations.
Local Open Scope string_scope.
Local Open Scope Z_scope.

(** ** JavaScript values used by the component *)

Inductive number := Num (z : Z) | NaN.

Definition num_add (a b : number) : number :=
  match a, b with
  | Num x, Num y => Num (x + y)
  | _, _ => NaN
  end.

Definition num_mul (a b : number) : number :=
  match a, b with
  | Num x, Num y => Num (x * y)
  | _, _ => NaN
  end.

(** [a === b] on numbers: [NaN] is different from everything. *)
Definition num_strict_eq (a b : number) : bool :=
  match a, b with
  | Num x, Num y => x =? y
  | _, _ => false
  end.

Inductive JSError := TypeError | SyntaxError.

Inductive result (A : Type) :=
| Returned (a : A)
| Thrown (e : JSError).
Arguments Returned {A} a.
Arguments Thrown {A} e.

(** [Math.floor(n / 2)] on an integer. *)
Definition floor_half (n : Z) : Z := n / 2.

(** [arr[i]]: [undefined] (here [None]) outside [0 .. length-1]. *)
Definition index {A} (arr : list A) (i : Z) : option A :=
  if 0 <=? i then arr !! Z.to_nat i else None.

(** A string is truthy when it is not empty. *)
Definition truthy (s : string) : bool :=
  match s with EmptyString => false | _ => true end.

(** ** Data model *)

Inductive LucideIcon := Heart | Star | Sun | Moon | Cloud | Flower2.

Record MemoryCard := mkCard {
  id : Z;
  icon : LucideIcon;
  isMatched : bool;
  isFlipped : bool;
  color : string
}.

Definition MEMORY_STORAGE_KEYS_CARDS := "memory_cards".
Definition MEMORY_STORAGE_KEYS_MATCHES := "memory_matches".
Definition MEMORY_STORAGE_KEYS_IS_CHECKING := "memory_is_checking".
Definition MEMORY_STORAGE_KEYS_GAME_STATE := "memory_game_state".

(** [Object.values(MEMORY_STORAGE_KEYS)], in declaration order. *)
Definition MEMORY_STORAGE_KEYS : list string :=
  [ MEMORY_STORAGE_KEYS_CARDS; MEMORY_STORAGE_KEYS_MATCHES;
    MEMORY_STORAGE_KEYS_IS_CHECKING; MEMORY_STORAGE_KEYS_GAME_STATE ].

Record CardConfig := mkConfig { config_icon : LucideIcon; config_color : string }.

Definition CARD_CONFIGS : list CardConfig :=
  [ mkConfig Heart "text-rose-500";
    mkConfig Star "text-amber-500";
    mkConfig Sun "text-yellow-500";
    mkConfig Moon "text-purple-500";
    mkConfig Cloud "text-sky-500";
    mkConfig Flower2 "text-emerald-500" ].

(** [CARD_CONFIGS.length], the number of pairs. *)
Definition P : Z := Z.of_nat (length CARD_CONFIGS).

(** The key two cards of one pair share: [Math.floor(card.id / 2)]. *)
Definition pairKey (card : MemoryCard) : Z := floor_half (id card).

(** ** createCards *)

(** The two cards pushed for the configuration at [index]. *)
Definition pairOf (cfg : CardConfig) (index : Z) : list MemoryCard :=
  [ mkCard (index * 2) (config_icon cfg) false false (config_color cfg);
    mkCard (index * 2 + 1) (config_icon cfg) false false (config_color cfg) ].

(** [CARD_CONFIGS.forEach(({icon, color}, index) => cards.push(..., ...))]. *)
Fixpoint pushPairs (cfgs : list CardConfig) (index : Z) : list MemoryCard :=
  match cfgs with
  | [] => []
  | cfg :: rest => pairOf cfg index ++ pushPairs rest (index + 1)
  end.

Definition unshuffledCards : list MemoryCard := pushPairs CARD_CONFIGS 0.

(** [cards.sort(() => Math.random() - 0.5)] reorders the array in a way
    that depends on the random source and on the engine's sort; whatever
    the order, the result holds the same cards.  [createCards deck] says
    that [deck] is a possible return value of [createCards()]. *)
Definition createCards (deck : list MemoryCard) : Prop :=
  Permutation unshuffledCards deck.

(** ** Component state, timers and the world around them *)

Record State := mkState {
  gameState : string;
  cards : list MemoryCard;
  matches : number;
  isChecking : bool
}.

(** The variables a [setTimeout] callback of [handleCardClick] closes
    over: [newCards], [isMatch] and the [matches] of the render in which
    the click happened. *)
Record Timer := mkTimer {
  timer_newCards : list MemoryCard;
  timer_isMatch : bool;
  timer_matches : number
}.

Record World := mkWorld {
  state : State;
  timers : list Timer;                    (* pending callbacks, oldest first *)
  sessionStorage : gmap string string;
  console : list string;                  (* console.error messages, newest first *)
  onComplete : list number                (* scores handed to props.onComplete, newest first *)
}.

Definition setGameState (g : string) (s : State) : State :=
  mkState g (cards s) (matches s) (isChecking s).
Definition setCards (c : list MemoryCard) (s : State) : State :=
  mkState (gameState s) c (matches s) (isChecking s).
Definition setMatches (m : number) (s : State) : State :=
  mkState (gameState s) (cards s) m (isChecking s).
Definition setIsChecking (b : bool) (s : State) : State :=
  mkState (gameState s) (cards s) (matches s) b.

Definition with_state (s : State) (w : World) : World :=
  mkWorld s (timers w) (sessionStorage w) (console w) (onComplete w).
Definition with_timers (t : list Timer) (w : World) : World :=
  mkWorld (state w) t (sessionStorage w) (console w) (onComplete w).
Definition with_storage (m : gmap string string) (w : World) : World :=
  mkWorld (state w) (timers w) m (console w) (onComplete w).

(** [{ ...card, isFlipped: b }] and [{ ...card, isMatched: b }]. *)
Definition card_with_isFlipped (b : bool) (card : MemoryCard) : MemoryCard :=
  mkCard (id card) (icon card) (isMatched card) b (color card).
Definition card_with_isMatched (b : bool) (card : MemoryCard) : MemoryCard :=
  mkCard (id card) (icon card) b (isFlipped card) (color card).

(** [card.isFlipped && !card.isMatched]. *)
Definition flippedUnmatched (card : MemoryCard) : bool :=
  isFlipped card && negb (isMatched card).

(** ** Built-ins of the host

    [parseInt], [Number.prototype.toString] and the JSON codec belong to
    the JavaScript host, not to the component.  The engine is defined
    over any host; [browser] below is an executable one.

    The codec is typed by what the component reads and writes: the save
    effect stringifies an array of card records (the [icon] property is
    [undefined] and therefore dropped), and the load effect expects the
    same shape back.  [JSON_parse] returns [Thrown] when [JSON.parse]
    throws a SyntaxError and when the parsed value is not an array of
    objects, where [parsedCards.map] or [card.id] throws a TypeError:
    both are caught by the same [catch]. *)

Record SerializableCard := mkSerializable {
  ser_id : Z;
  ser_color : string;
  ser_isMatched : bool;
  ser_isFlipped : bool;
  ser_iconIndex : Z
}.

Class Host := {
  number_toString : number -> string;
  parseInt : string -> number;
  JSON_stringify : list SerializableCard -> string;
  JSON_parse : string -> result (list SerializableCard)
}.

(** [b.toString()] on a boolean. *)
Definition boolean_toString (b : bool) : string :=
  if b then "true" else "false".

(** [CARD_CONFIGS.find((_, i) => p(i))], scanning from position [i]. *)
Fixpoint find_by_index (p : Z -> bool) (cfgs : list CardConfig) (i : Z)
  : option CardConfig :=
  match cfgs with
  | [] => None
  | cfg :: rest => if p i then Some cfg else find_by_index p rest (i + 1)
  end.

(** [iconConfig?.icon || Heart] for the card id [n]. *)
Definition restoredIcon (n : Z) : LucideIcon :=
  match find_by_index (fun i => floor_half n =? i) CARD_CONFIGS 0 with
  | Some iconConfig => config_icon iconConfig
  | None => Heart
  end.

(** [{ ...card, icon: iconConfig?.icon || Heart }].  The JavaScript
    object also keeps the [iconIndex] property it was stored with; no
    code reads it and the next save overwrites it. *)
Definition restoreCard (card : SerializableCard) : MemoryCard :=
  mkCard (ser_id card) (restoredIcon (ser_id card))
         (ser_isMatched card) (ser_isFlipped card) (ser_color card).

(** [{ ...card, icon: undefined, iconIndex: Math.floor(card.id / 2) }]. *)
Definition serializeCard (card : MemoryCard) : SerializableCard :=
  mkSerializable (id card) (color card) (isMatched card) (isFlipped card)
                 (floor_half (id card)).

(** [sessionStorage.removeItem] on every key of [MEMORY_STORAGE_KEYS]. *)
Definition clearSessionStorage (store : gmap string string) : gmap string string :=
  foldl (fun m key => delete key m) store MEMORY_STORAGE_KEYS.

Definition console_error_loading : string :=
  "Error loading Memory Game from session storage:".

Definition initialState (deck : list MemoryCard) : State :=
  mkState "ready" deck (Num 0) false.

Section Engine.
Context `{Host}.

(** The body of the save effect, run with the state of a render. *)
Definition saveEffect (s : State) (store : gmap string string)
  : gmap string string :=
  let store1 := <[MEMORY_STORAGE_KEYS_GAME_STATE := gameState s]> store in
  let store2 := <[MEMORY_STORAGE_KEYS_MATCHES := number_toString (matches s)]> store1 in
  let serializableCards := map serializeCard (cards s) in
  let store3 := <[MEMORY_STORAGE_KEYS_CARDS := JSON_stringify serializableCards]> store2 in
  <[MEMORY_STORAGE_KEYS_IS_CHECKING := boolean_toString (isChecking s)]> store3.

(** The render that follows a state update: one of the effect's
    dependencies changed, so the save effect runs with the new state. *)
Definition rerender (w : World) : World :=
  with_storage (saveEffect (state w) (sessionStorage w)) w.

(** The body of the load effect.  The three [set...] calls are queued
    as they are reached; an exception thrown later does not undo the
    ones already made. *)
Definition loadEffect (w : World) : World :=
  let savedGameState := sessionStorage w !! MEMORY_STORAGE_KEYS_GAME_STATE in
  let savedMatches := sessionStorage w !! MEMORY_STORAGE_KEYS_MATCHES in
  let savedCards := sessionStorage w !! MEMORY_STORAGE_KEYS_CARDS in
  let s1 :=
    match savedGameState with
    | Some g => if truthy g then setGameState g (state w) else state w
    | None => state w
    end in
  let s2 :=
    match savedMatches with
    | Some m => if truthy m then setMatches (parseInt m) s1 else s1
    | None => s1
    end in
  match savedCards with
  | Some c =>
      if truthy c then
        match JSON_parse c with
        | Returned parsedCards =>
            let restoredCards := map restoreCard parsedCards in
            with_state (setCards restoredCards s2) w
        | Thrown _ =>
            mkWorld s2 (timers w) (sessionStorage w)
                    (console_error_loading :: console w) (onComplete w)
        end
      else with_state s2 w
  | None => with_state s2 w
  end.

(** Mounting the component over a session storage: first render with
    the initial state, then the load effect, then the save effect of
    the first render (still with the initial state), then the render
    caused by the load effect's updates and its save effect. *)
Definition mount (deck : list MemoryCard) (store : gmap string string) : World :=
  let w0 := mkWorld (initialState deck) [] store [] [] in
  let w1 := loadEffect w0 in
  rerender (with_storage (saveEffect (state w0) (sessionStorage w1)) w1).

(** [handleCardClick(clickedIndex)], a closure over the state of [w].
    [flippedCards.length === 2] followed by
    [const [firstCard, secondCard] = flippedCards] is the match on a
    two-element list. *)
Definition handleCardClick (clickedIndex : Z) (w : World) : result World :=
  let s := state w in
  if isChecking s then Returned w
  else
    match index (cards s) clickedIndex with
    | None => Thrown TypeError      (* cards[clickedIndex] is undefined *)
    | Some clicked =>
        if isMatched clicked || isFlipped clicked then Returned w
        else
          let newCards :=
            <[Z.to_nat clickedIndex := card_with_isFlipped true clicked]> (cards s) in
          let flippedCards := List.filter flippedUnmatched newCards in
          match flippedCards with
          | [firstCard; secondCard] =>
              let isMatch := pairKey firstCard =? pairKey secondCard in
              let callback := mkTimer newCards isMatch (matches s) in
              Returned
                (rerender
                   (with_timers (timers w ++ [callback])
                      (with_state (setIsChecking true (setCards newCards s)) w)))
          | _ => Returned (rerender (with_state (setCards newCards s) w))
          end
    end.

(** The body of the [setTimeout] callback, applied to the state the
    component has when the timer fires. *)
Definition resolution (t : Timer) (s : State) : State :=
  let newCards := timer_newCards t in
  if timer_isMatch t then
    let updatedCards :=
      map (fun card => if flippedUnmatched card
                       then card_with_isMatched true card else card) newCards in
    let s1 := setMatches (num_add (timer_matches t) (Num 1)) s in
    let s2 := if num_strict_eq (num_add (timer_matches t) (Num 1)) (Num P)
              then setGameState "complete" s1 else s1 in
    setIsChecking false (setCards updatedCards s2)
  else
    let updatedCards :=
      map (fun card => if flippedUnmatched card
                       then card_with_isFlipped false card else card) newCards in
    setIsChecking false (setCards updatedCards s).

(** The oldest pending timer fires (all timers have the same delay). *)
Definition timerFires (w : World) : World :=
  match timers w with
  | [] => w
  | t :: rest => rerender (with_state (resolution t (state w)) (with_timers rest w))
  end.

(** [startGame()], given the deck its call to [createCards()] returns. *)
Definition startGame (deck : list MemoryCard) (w : World) : World :=
  let s := setIsChecking false
             (setMatches (Num 0) (setCards deck (setGameState "playing" (state w)))) in
  rerender (with_storage (clearSessionStorage (sessionStorage w)) (with_state s w)).

(** [handleComplete()]: no state is set, so no render follows. *)
Definition handleComplete (w : World) : World :=
  let score := num_mul (matches (state w)) (Num 100) in
  mkWorld (state w) (timers w) (clearSessionStorage (sessionStorage w))
          (console w) (score :: onComplete w).

(** What can happen to a mounted component. *)
Inductive Event :=
| Click (clickedIndex : Z)
| TimerFires
| StartGame (deck : list MemoryCard)
| Complete.

(** An exception thrown by a click handler leaves state, timers and
    storage as they were. *)
Definition step (w : World) (e : Event) : World :=
  match e with
  | Click i => match handleCardClick i w with Returned w' => w' | Thrown _ => w end
  | TimerFires => timerFires w
  | StartGame deck => startGame deck w
  | Complete => handleComplete w
  end.

Definition run (w : World) (es : list Event) : World := foldl step w es.

End Engine.

(** ** An executable host

    [browser] implements the built-ins on the fragment the component
    uses: decimal and [0x] integers for [parseInt], and for JSON the
    arrays of flat objects with integer, boolean and string properties
    that the save effect writes (properties in any order, optional
    white space, the escapes of quote and backslash).  Text outside this
    fragment is reported as [Thrown]. *)
Module Browser.

Definition is_whitespace (c : ascii) : bool :=
  match nat_of_ascii c with
  | 9%nat | 10%nat | 11%nat | 12%nat | 13%nat | 32%nat => true
  | _ => false
  end.

Fixpoint skip_whitespace (s : string) : string :=
  match s with
  | String c rest => if is_whitespace c then skip_whitespace rest else s
  | EmptyString => s
  end.

(** The value of [c] as a digit in a radix up to 16. *)
Definition digit_value (c : ascii) : option Z :=
  let n := Z.of_nat (nat_of_ascii c) in
  if (48 <=? n) && (n <=? 57) then Some (n - 48)
  else if (97 <=? n) && (n <=? 102) then Some (n - 87)
  else if (65 <=? n) && (n <=? 70) then Some (n - 55)
  else None.

(** The longest prefix of digits of [radix], with what follows it;
    [None] when [s] starts with no digit. *)
Fixpoint read_digits (radix : Z) (acc : option Z) (s : string)
  : option Z * string :=
  match s with
  | String c rest =>
      match digit_value c with
      | Some d =>
          if d <? radix
          then read_digits radix (Some (default 0 acc * radix + d)) rest
          else (acc, s)
      | None => (acc, s)
      end
  | EmptyString => (acc, s)
  end.

Definition read_sign (s : string) : Z * string :=
  match s with
  | String "-" rest => (-1, rest)
  | String "+" rest => (1, rest)
  | _ => (1, s)
  end.

Definition read_radix (s : string) : Z * string :=
  match s with
  | String "0" (String "x" rest) => (16, rest)
  | String "0" (String "X" rest) => (16, rest)
  | _ => (10, s)
  end.

Definition parseInt (s : string) : number :=
  let '(sign, s1) := read_sign (skip_whitespace s) in
  let '(radix, s2) := read_radix s1 in
  match fst (read_digits radix None s2) with
  | Some n => Num (sign * n)
  | None => NaN
  end.

Definition Z_toString (z : Z) : string :=
  DecimalString.NilZero.string_of_int (Z.to_int z).

Definition number_toString (n : number) : string :=
  match n with
  | Num z => Z_toString z
  | NaN => "NaN"
  end.

(** *** JSON text *)

Definition quote : ascii := ascii_of_nat 34.
Definition backslash : ascii := ascii_of_nat 92.

Fixpoint escape (s : string) : string :=
  match s with
  | String c rest =>
      if Ascii.eqb c quote || Ascii.eqb c backslash
      then String backslash (String c (escape rest))
      else String c (escape rest)
  | EmptyString => EmptyString
  end.

Definition quoted (s : string) : string :=
  String quote (escape s ++ String quote EmptyString).

Definition property (key value : string) : string :=
  quoted key ++ ":" ++ value.

Definition stringify_card (card : SerializableCard) : string :=
  "{" ++ property "id" (Z_toString (ser_id card))
  ++ "," ++ property "color" (quoted (ser_color card))
  ++ "," ++ property "isMatched" (boolean_toString (ser_isMatched card))
  ++ "," ++ property "isFlipped" (boolean_toString (ser_isFlipped card))
  ++ "," ++ property "iconIndex" (Z_toString (ser_iconIndex card))
  ++ "}".

Definition JSON_stringify (l : list SerializableCard) : string :=
  "[" ++ String.concat "," (map stringify_card l) ++ "]".

Inductive jvalue := JInt (z : Z) | JBool (b : bool) | JString (s : string).

(** [s] without the prefix [lit], if it starts with it. *)
Fixpoint expect (lit s : string) : option string :=
  match lit, s with
  | EmptyString, _ => Some s
  | String a lit', String b s' => if Ascii.eqb a b then expect lit' s' else None
  | _, _ => None
  end.

(** The characters up to the closing quote, unescaped. *)
Fixpoint read_string_body (s : string) : option (string * string) :=
  match s with
  | EmptyString => None
  | String c rest =>
      if Ascii.eqb c quote then Some (EmptyString, rest)
      else if Ascii.eqb c backslash then
        match rest with
        | String e rest' =>
            if Ascii.eqb e quote || Ascii.eqb e backslash
            then '(body, after) ← read_string_body rest'; Some (String e body, after)
            else None
        | EmptyString => None
        end
      else '(body, after) ← read_string_body rest; Some (String c body, after)
  end.

Definition read_string (s : string) : option (string * string) :=
  match s with
  | String c rest => if Ascii.eqb c quote then read_string_body rest else None
  | EmptyString => None
  end.

Definition read_integer (s : string) : option (Z * string) :=
  let '(sign, s1) := match s with
                     | String "-" rest => (-1, rest)
                     | _ => (1, s)
                     end in
  match read_digits 10 None s1 with
  | (Some n, after) => Some (sign * n, after)
  | (None, _) => None
  end.

Definition read_value (s : string) : option (jvalue * string) :=
  match s with
  | String "t" _ => after ← expect "true" s; Some (JBool true, after)
  | String "f" _ => after ← expect "false" s; Some (JBool false, after)
  | String c _ =>
      if Ascii.eqb c quote
      then '(str, after) ← read_string s; Some (JString str, after)
      else '(z, after) ← read_integer s; Some (JInt z, after)
  | EmptyString => None
  end.

(** [key : value] pairs up to the closing brace; [fuel] bounds the
    number of pairs. *)
Fixpoint read_members (fuel : nat) (s : string)
  : option (list (string * jvalue) * string) :=
  match fuel with
  | O => None
  | S fuel' =>
      '(key, s1) ← read_string (skip_whitespace s);
      s2 ← expect ":" (skip_whitespace s1);
      '(value, s3) ← read_value (skip_whitespace s2);
      match skip_whitespace s3 with
      | String "," s4 =>
          '(members, after) ← read_members fuel' s4;
          Some ((key, value) :: members, after)
      | String "}" after => Some ([(key, value)], after)
      | _ => None
      end
  end.

Definition read_object (s : string) : option (list (string * jvalue) * string) :=
  s1 ← expect "{" (skip_whitespace s);
  match skip_whitespace s1 with
  | String "}" after => Some ([], after)
  | _ => read_members (String.length s1) s1
  end.

Fixpoint read_elements (fuel : nat) (s : string)
  : option (list (list (string * jvalue)) * string) :=
  match fuel with
  | O => None
  | S fuel' =>
      '(object, s1) ← read_object s;
      match skip_whitespace s1 with
      | String "," s2 =>
          '(elements, after) ← read_elements fuel' s2;
          Some (object :: elements, after)
      | String "]" after => Some ([object], after)
      | _ => None
      end
  end.

Definition read_array (s : string) : option (list (list (string * jvalue))) :=
  s1 ← expect "[" (skip_whitespace s);
  '(elements, after) ←
    match skip_whitespace s1 with
    | String "]" after => Some ([], after)
    | _ => read_elements (String.length s1) s1
    end;
  match skip_whitespace after with
  | EmptyString => Some elements
  | _ => None
  end.

(** The last property of a given name wins, as in JavaScript. *)
Fixpoint property_of (key : string) (members : list (string * jvalue)) : option jvalue :=
  match members with
  | [] => None
  | (k, v) :: rest =>
      match property_of key rest with
      | Some v' => Some v'
      | None => if String.eqb k key then Some v else None
      end
  end.

Definition card_of_object (members : list (string * jvalue)) : option SerializableCard :=
  match property_of "id" members, property_of "color" members,
        property_of "isMatched" members, property_of "isFlipped" members,
        property_of "iconIndex" members with
  | Some (JInt n), Some (JString c), Some (JBool m), Some (JBool f), Some (JInt k) =>
      Some (mkSerializable n c m f k)
  | _, _, _, _, _ => None
  end.

Definition JSON_parse (s : string) : result (list SerializableCard) :=
  match read_array s with
  | None => Thrown SyntaxError
  | Some objects =>
      match mapM card_of_object objects with
      | Some parsedCards => Returned parsedCards
      | None => Thrown TypeError
      end
  end.

End Browser.

Definition browser : Host := {|
  number_toString := Browser.number_toString;
  parseInt := Browser.parseInt;
  JSON_stringify := Browser.JSON_stringify;
  JSON_parse := Browser.JSON_parse
|}.

(** An empty world around a mounted component. *)
Definition world_of (s : State) : World := mkWorld s [] ∅ [] [].

(** ** Vocabulary of the properties *)

Section Vocabulary.
Context `{Host}.

(** The array [newCards] of a click on card [clicked] at [i]. *)
Definition flipAt (i : Z) (clicked : MemoryCard) (s : State) : list MemoryCard :=
  <[Z.to_nat i := card_with_isFlipped true clicked]> (cards s).

(** The world after a click that left exactly two cards face up. *)
Definition scheduled (i : Z) (clicked a b : MemoryCard) (w : World) : World :=
  let newCards := flipAt i clicked (state w) in
  rerender
    (with_timers
       (timers w ++ [mkTimer newCards (pairKey a =? pairKey b) (matches (state w))])
       (with_state (setIsChecking true (setCards newCards (state w))) w)).

(** The world after any other accepted click. *)
Definition flipped (i : Z) (clicked : MemoryCard) (w : World) : World :=
  rerender (with_state (setCards (flipAt i clicked (state w)) (state w)) w).

(** The four ways a click can end. *)
Inductive ClickOutcome (i : Z) (w : World) : result World -> Prop :=
| click_out_of_range :
    isChecking (state w) = false ->
    index (cards (state w)) i = None ->
    ClickOutcome i w (Thrown TypeError)
| click_ignored :
    isChecking (state w) = true
    \/ (exists card, index (cards (state w)) i = Some card
                     /\ isMatched card || isFlipped card = true) ->
    ClickOutcome i w (Returned w)
| click_second clicked a b :
    isChecking (state w) = false ->
    index (cards (state w)) i = Some clicked ->
    isMatched clicked = false -> isFlipped clicked = false ->
    List.filter flippedUnmatched (flipAt i clicked (state w)) = [a; b] ->
    ClickOutcome i w (Returned (scheduled i clicked a b w))
| click_other clicked :
    isChecking (state w) = false ->
    index (cards (state w)) i = Some clicked ->
    isMatched clicked = false -> isFlipped clicked = false ->
    length (List.filter flippedUnmatched (flipAt i clicked (state w))) <> 2%nat ->
    ClickOutcome i w (Returned (flipped i clicked w)).

(** What the callback does to one card of [newCards]. *)
Definition markMatched (card : MemoryCard) : MemoryCard :=
  if flippedUnmatched card then card_with_isMatched true card else card.
Definition flipBack (card : MemoryCard) : MemoryCard :=
  if flippedUnmatched card then card_with_isFlipped false card else card.



(** The events of play: everything but a restart. *)
Definition is_play (e : Event) : bool :=
  match e with
  | StartGame _ => false
  | _ => true
  end.

(** No resolution is pending and input is open. *)
Definition quiet (w : World) : Prop :=
  isChecking (state w) = false /\ timers w = [].

(** Exactly one resolution is pending; its callback holds the cards
    and the match count of the current state, two of the cards are
    face up and unmatched, and input is blocked. *)
Definition resolving (w : World) : Prop :=
  isChecking (state w) = true
  /\ exists a b,
       List.filter flippedUnmatched (cards (state w)) = [a; b]
       /\ timers w = [mkTimer (cards (state w)) (pairKey a =? pairKey b)
                              (matches (state w))].

End Vocabulary.

(** ** Sample worlds *)

Definition demo_heart_0 : MemoryCard := mkCard 0 Heart false false "text-rose-500".
Definition demo_star_2 : MemoryCard := mkCard 2 Star false false "text-amber-500".

(** Five pairs found so far, the first heart face up. *)
Definition demo_one_up : World :=
  world_of (mkState "playing"
              (<[0%nat := card_with_isFlipped true demo_heart_0]> unshuffledCards)
              (Num 5) false).

(** Five pairs found, both hearts face up and their resolution pending. *)
Definition demo_pending : World := step (H := browser) demo_one_up (Click 1).

(** A stored card array whose first card has an id no symbol stands for. *)
Definition demo_foreign_cards : list SerializableCard :=
  [ mkSerializable 100 "text-rose-500" false true 50;
    mkSerializable 3 "text-amber-500" true true 1 ].

Definition demo_foreign_store : gmap string string :=
  {[ MEMORY_STORAGE_KEYS_CARDS := Browser.JSON_stringify demo_foreign_cards ]}.

(** Phase and match count of a game in progress, and a card array that
    is not JSON. *)
Definition demo_broken_store : gmap string string :=
  <[MEMORY_STORAGE_KEYS_CARDS := "garbage"]>
    (<[MEMORY_STORAGE_KEYS_MATCHES := "3"]>
       {[ MEMORY_STORAGE_KEYS_GAME_STATE := "playing" ]}).

Definition fresh_world (deck : list MemoryCard) (store : gmap string string) : World :=
  mkWorld (initialState deck) [] store [] [].

(** ** The rendered tree

    The JSX of the component shows one block per phase:
    [gameState === "ready"] the start button, [gameState === "playing"]
    one tile per card ([cards.map((card, index) => ...)], each with
    [onClick={() => handleCardClick(index)}]), and
    [gameState === "complete"] the button that calls [handleComplete]. *)

Inductive Control :=
| StartButton
| CardTile (index : nat)
| NextButton.

Definition rendered (s : State) : list Control :=
  (if String.eqb (gameState s) "ready" then [StartButton] else [])
  ++ (if String.eqb (gameState s) "playing"
      then imap (fun index _ => CardTile index) (cards s) else [])
  ++ (if String.eqb (gameState s) "complete" then [NextButton] else []).

(** The event a click on a control causes; [startGame] gets its deck
    from [createCards()]. *)
Inductive onClick : Control -> Event -> Prop :=
| onClick_start deck : createCards deck -> onClick StartButton (StartGame deck)
| onClick_tile index : onClick (CardTile index) (Click (Z.of_nat index))
| onClick_next : onClick NextButton Complete.

(** What can happen to the component in world [w]: a pending timer
    fires, or the user clicks a control that is on the screen. *)
Definition offered (w : World) (e : Event) : Prop :=
  e = TimerFires \/ exists c, In c (rendered (state w)) /\ onClick c e.

Section Further.
Context `{Host}.

(** A sequence of events each of which is offered when it happens. *)
Fixpoint ui_run (w : World) (es : list Event) : Prop :=
  match es with
  | [] => True
  | e :: rest => offered w e /\ ui_run (step w e) rest
  end.

(** The four entries of the storage hold the current state as the save
    effect writes it. *)
Definition synced (w : World) : Prop :=
  sessionStorage w !! MEMORY_STORAGE_KEYS_GAME_STATE = Some (gameState (state w))
  /\ sessionStorage w !! MEMORY_STORAGE_KEYS_MATCHES
     = Some (number_toString (matches (state w)))
  /\ sessionStorage w !! MEMORY_STORAGE_KEYS_CARDS
     = Some (JSON_stringify (map serializeCard (cards (state w))))
  /\ sessionStorage w !! MEMORY_STORAGE_KEYS_IS_CHECKING
     = Some (boolean_toString (isChecking (state w))).

End Further.

(** What no handler changes of a card: its id, icon and color. *)
Definition face (card : MemoryCard) : Z * LucideIcon * string :=
  (id card, icon card, color card).

(** Numbers of matched cards and of face-up, unmatched cards. *)
Definition matchedCount (l : list MemoryCard) : nat :=
  length (List.filter isMatched l).
Definition faceUpCount (l : list MemoryCard) : nat :=
  length (List.filter flippedUnmatched l).

(** Every matched card has a matched partner with its pair key at
    another position. *)
Definition partnered (l : list MemoryCard) : Prop :=
  forall j card, l !! j = Some card -> isMatched card = true ->
    exists j' card', j' <> j /\ l !! j' = Some card'
                     /\ isMatched card' = true /\ pairKey card' = pairKey card.

(** Every card shows the icon its id stands for. *)
Definition icons_follow_ids (l : list MemoryCard) : Prop :=
  Forall (fun card => icon card = restoredIcon (id card)) l.

(** The decks of the restarts in a sequence of events come from
    [createCards()]. *)
Definition dealt (e : Event) : Prop :=
  match e with
  | StartGame deck => createCards deck
  | _ => True
  end.

Definition is_complete (e : Event) : bool :=
  match e with
  | Complete => true
  | _ => false
  end.

(** The state of a game in progress: [m] pairs found out of [P]. *)
Definition in_progress (m : nat) (s : State) : Prop :=
  matches s = Num (Z.of_nat m)
  /\ matchedCount (cards s) = (2 * m)%nat
  /\ length (cards s) = (2 * length CARD_CONFIGS)%nat
  /\ (m <= length CARD_CONFIGS)%nat
  /\ gameState s = (if (m =? length CARD_CONFIGS)%nat then "complete" else "playing").

(** The invariant of a game: nothing pending and at most one card face
    up, or one resolution pending; and the counters agree. *)
Definition on_course (w : World) : Prop :=
  ((quiet w /\ (faceUpCount (cards (state w)) <= 1)%nat) \/ resolving w)
  /\ exists m, in_progress m (state w).

(** Play through the screen keeps this: nothing is pending, or one
    resolution is and the phase is "playing". *)
Definition screen_safe (w : World) : Prop :=
  quiet w \/ (resolving w /\ gameState (state w) = "playing").

(** What stays of [w0] along play once two or more unmatched cards
    are face up with nothing pending. *)
Definition stuck_like (w0 w : World) : Prop :=
  quiet w
  /\ (2 <= faceUpCount (cards (state w)))%nat
  /\ matches (state w) = matches (state w0)
  /\ gameState (state w) = gameState (state w0)
  /\ map isMatched (cards (state w)) = map isMatched (cards (state w0))
  /\ forall j card, cards (state w0) !! j = Some card ->
       flippedUnmatched card = true -> cards (state w) !! j = Some card.

(** The storage has no usable entry under [key]: no entry, or the
    empty string. *)
Definition no_entry (store : gmap string string) (key : string) : Prop :=
  store !! key = None \/ store !! key = Some EmptyString.

(** The storage a reload finds when it happens while [demo_pending]
    waits for its resolution. *)
Definition demo_reload_store : gmap string string :=
  saveEffect (H := browser) (state demo_pending) ∅.

(** * Properties *)

(** Case analysis on the integer comparisons of the goal. *)
Ltac case_le :=
  match goal with |- context [(?lo <=? ?hi)%Z] => destruct (Z.leb_spec lo hi) end.
Ltac case_lt :=
  match goal with |- context [(?lo <? ?hi)%Z] => destruct (Z.ltb_spec lo hi) end.
Ltac case_bounds := repeat first [case_le | case_lt].
Ltac case_eq_Z :=
  match goal with |- context [(?lo =? ?hi)%Z] => destruct (Z.eqb_spec lo hi) end.

(** ** The deck factory *)

Section DeckFactory.

Lemma floor_half_even (k : Z) : floor_half (k * 2) = k.
Proof. unfold floor_half. apply Z.div_mul. lia. Qed.

Lemma floor_half_odd (k : Z) : floor_half (k * 2 + 1) = k.
Proof.
  unfold floor_half. rewrite Z.div_add_l by lia.
  replace (1 / 2) with 0 by reflexivity. lia.
Qed.

Lemma P_pairs : P = 6.
Proof. reflexivity. Qed.

Lemma pushPairs_length (cfgs : list CardConfig) (i : Z) :
  length (pushPairs cfgs i) = (2 * length cfgs)%nat.
Proof.
  revert i. induction cfgs as [|cfg rest IH]; intros i; simpl.
  - reflexivity.
  - rewrite IH. lia.
Qed.

(** Multiplicity of a pair key among the cards pushed from position [i]. *)
Lemma pushPairs_pairKeys (cfgs : list CardConfig) (i k : Z) :
  count_occ Z.eq_dec (map pairKey (pushPairs cfgs i)) k =
  if (i <=? k) && (k <? i + Z.of_nat (length cfgs)) then 2%nat else 0%nat.
Proof.
  revert i. induction cfgs as [|cfg rest IH]; intros i.
  - simpl. case_bounds; simpl; auto; lia.
  - cbn [pushPairs]. rewrite map_app, count_occ_app, IH.
    unfold pairOf, pairKey. cbn [map id].
    rewrite floor_half_even, floor_half_odd.
    cbn [count_occ length].
    destruct (Z.eq_dec i k) as [->|Hne]; case_bounds; simpl; auto; lia.
Qed.

Lemma pushPairs_face_down (cfgs : list CardConfig) (i : Z) :
  Forall (fun card => isFlipped card = false /\ isMatched card = false)
         (pushPairs cfgs i).
Proof.
  revert i. induction cfgs as [|cfg rest IH]; intros i; simpl.
  - constructor.
  - repeat (constructor; [simpl; auto|]). apply IH.
Qed.

(** The configuration at position [k] contributes the ids [2k] and [2k+1]. *)
Lemma pushPairs_ids (cfgs : list CardConfig) (i : Z) (k : nat) (cfg : CardConfig) :
  cfgs !! k = Some cfg ->
  In (mkCard ((i + Z.of_nat k) * 2) (config_icon cfg) false false (config_color cfg))
     (pushPairs cfgs i)
  /\ In (mkCard ((i + Z.of_nat k) * 2 + 1) (config_icon cfg) false false (config_color cfg))
        (pushPairs cfgs i).
Proof.
  revert i k. induction cfgs as [|c rest IH]; intros i k Hk.
  - discriminate.
  - destruct k as [|k]; simpl in Hk.
    + injection Hk as ->. replace (i + Z.of_nat 0) with i by lia.
      simpl. auto.
    + destruct (IH (i + 1) k Hk) as [He Ho].
      replace (i + Z.of_nat (S k)) with (i + 1 + Z.of_nat k) by lia.
      simpl. auto.
Qed.

(** Every card of a deck comes from some configuration. *)
Lemma pushPairs_origin (cfgs : list CardConfig) (i : Z) (card : MemoryCard) :
  In card (pushPairs cfgs i) ->
  exists (k : nat) cfg, cfgs !! k = Some cfg
    /\ icon card = config_icon cfg /\ color card = config_color cfg
    /\ (id card = (i + Z.of_nat k) * 2 \/ id card = (i + Z.of_nat k) * 2 + 1).
Proof.
  revert i. induction cfgs as [|c rest IH]; intros i Hin.
  - contradiction.
  - simpl in Hin. destruct Hin as [<-|[<-|Hin]].
    + exists 0%nat, c. simpl. repeat split; auto. left. lia.
    + exists 0%nat, c. simpl. repeat split; auto. right. lia.
    + destruct (IH _ Hin) as (k & cfg & Hk & Hi & Hc & Hid).
      exists (S k), cfg. simpl. repeat split; auto. lia.
Qed.

End DeckFactory.

(** C7. Every deck [createCards()] can return has [2 * P = 12] cards;
    each pair key [0 .. P-1] occurs exactly twice among them and no
    other key occurs; every card is face down and unmatched; and for
    each symbol index [k] the deck holds the cards with ids [2k] and
    [2k+1] carrying the icon and color of configuration [k]. *)
Theorem C7_createCards_deck (deck : list MemoryCard) :
  createCards deck ->
  Z.of_nat (length deck) = 2 * P /\ length deck = 12%nat
  /\ (forall k : Z,
        count_occ Z.eq_dec (map pairKey deck) k =
        if (0 <=? k) && (k <? P) then 2%nat else 0%nat)
  /\ Forall (fun card => isFlipped card = false /\ isMatched card = false) deck
  /\ (forall (k : nat) cfg, CARD_CONFIGS !! k = Some cfg ->
        In (mkCard (2 * Z.of_nat k) (config_icon cfg) false false (config_color cfg)) deck
        /\ In (mkCard (2 * Z.of_nat k + 1) (config_icon cfg) false false (config_color cfg)) deck).
Proof.
  unfold createCards. intros Hperm.
  assert (Hlen : length deck = 12%nat).
  { rewrite <- (Permutation_length Hperm). unfold unshuffledCards.
    rewrite pushPairs_length. reflexivity. }
  split; [rewrite Hlen; reflexivity|]. split; [exact Hlen|].
  split; [|split].
  - intros k.
    rewrite <- (proj1 (Permutation_count_occ Z.eq_dec _ _)
                      (Permutation_map pairKey Hperm) k).
    unfold unshuffledCards. rewrite pushPairs_pairKeys. reflexivity.
  - eapply Permutation_Forall; [exact Hperm|]. apply pushPairs_face_down.
  - intros k cfg Hk.
    destruct (pushPairs_ids CARD_CONFIGS 0 k cfg Hk) as [He Ho].
    replace ((0 + Z.of_nat k) * 2) with (2 * Z.of_nat k) in * by lia.
    split; eapply Permutation_in; eauto.
Qed.

Lemma C7_createCards_deck_witness :
  createCards (rev unshuffledCards)
  /\ length (rev unshuffledCards) = 12%nat.
Proof.
  assert (Hdeck : createCards (rev unshuffledCards)) by apply Permutation_rev.
  split; [exact Hdeck|].
  exact (proj1 (proj2 (C7_createCards_deck (rev unshuffledCards) Hdeck))).
Defined.

(** ** Session storage *)

Section Storage.

Lemma clearSessionStorage_removed (store : gmap string string) :
  Forall (fun key => clearSessionStorage store !! key = None) MEMORY_STORAGE_KEYS.
Proof.
  unfold clearSessionStorage, MEMORY_STORAGE_KEYS; cbn [foldl].
  repeat constructor;
    repeat first [ apply lookup_delete_eq
                 | rewrite lookup_delete_ne by discriminate ].
Qed.

Lemma clearSessionStorage_other (store : gmap string string) (key : string) :
  ~ In key MEMORY_STORAGE_KEYS ->
  clearSessionStorage store !! key = store !! key.
Proof.
  unfold clearSessionStorage, MEMORY_STORAGE_KEYS; cbn [foldl In].
  intros Hkey. rewrite !lookup_delete_ne; try reflexivity;
    intros Heq; apply Hkey; auto 6.
Qed.

End Storage.

(** C8. Whatever the match count and whatever the phase,
    [handleComplete()] hands [matches * 100] to the completion callback:
    the integer [z * 100] when the count is the integer [z], and [NaN]
    when the count is [NaN].  It removes the four storage entries of the
    game and leaves every other entry; it sets no state, and its effect
    does not depend on [gameState]. *)
Theorem C8_handleComplete_score (w : World) :
  let w' := handleComplete w in
  onComplete w' =
    (match matches (state w) with
     | Num z => Num (z * 100)
     | NaN => NaN
     end) :: onComplete w
  /\ onComplete w' = num_mul (matches (state w)) (Num 100) :: onComplete w
  /\ Forall (fun key => sessionStorage w' !! key = None) MEMORY_STORAGE_KEYS
  /\ (forall key, ~ In key MEMORY_STORAGE_KEYS ->
        sessionStorage w' !! key = sessionStorage w !! key)
  /\ state w' = state w /\ timers w' = timers w /\ console w' = console w
  /\ (forall phase,
        let v := handleComplete (with_state (setGameState phase (state w)) w) in
        onComplete v = onComplete w' /\ sessionStorage v = sessionStorage w').
Proof.
  cbn zeta. unfold handleComplete; cbn.
  split; [destruct (matches (state w)); reflexivity|].
  split; [reflexivity|].
  split; [apply clearSessionStorage_removed|].
  split; [intros key Hkey; apply clearSessionStorage_other; exact Hkey|].
  repeat split; reflexivity.
Qed.

(** Six matches reported while the phase is still "playing": the score
    is 600 and the stored card array is gone. *)
Lemma C8_handleComplete_score_witness :
  let w := rerender (H := browser)
             (world_of (mkState "playing" unshuffledCards (Num 6) false)) in
  sessionStorage w !! MEMORY_STORAGE_KEYS_MATCHES = Some "6"
  /\ onComplete (handleComplete w) = [Num 600]
  /\ sessionStorage (handleComplete w) !! MEMORY_STORAGE_KEYS_CARDS = None.
Proof.
  cbn zeta. split; [reflexivity|]. split.
  - exact (proj1 (C8_handleComplete_score
                    (rerender (H := browser)
                       (world_of (mkState "playing" unshuffledCards (Num 6) false))))).
  - exact (List.Forall_inv
             (proj1 (proj2 (proj2 (C8_handleComplete_score
                (rerender (H := browser)
                   (world_of (mkState "playing" unshuffledCards (Num 6) false)))))))).
Defined.

(** On integer match counts the score is the integer product. *)
Lemma handleComplete_integer_score (w : World) (z : Z) :
  matches (state w) = Num z ->
  onComplete (handleComplete w) = Num (z * 100) :: onComplete w.
Proof. intros Hm. unfold handleComplete; cbn. rewrite Hm. reflexivity. Qed.

(** ** Lists as JavaScript arrays *)

Section Arrays.
Context {A B : Type}.

Lemma index_Some (arr : list A) (i : Z) (x : A) :
  index arr i = Some x <-> 0 <= i /\ arr !! Z.to_nat i = Some x.
Proof.
  unfold index. destruct (Z.leb_spec 0 i).
  - split; [auto | intros [_ Hx]; exact Hx].
  - split; [discriminate | lia].
Qed.

Lemma index_None (arr : list A) (i : Z) :
  index arr i = None <-> i < 0 \/ Z.of_nat (length arr) <= i.
Proof.
  unfold index. destruct (Z.leb_spec 0 i).
  - rewrite lookup_ge_None. lia.
  - split; auto.
Qed.

Lemma index_of_nat (arr : list A) (j : nat) :
  index arr (Z.of_nat j) = arr !! j.
Proof.
  unfold index. destruct (Z.leb_spec 0 (Z.of_nat j)); [|lia].
  rewrite Nat2Z.id. reflexivity.
Qed.

Lemma lookup_map (f : A -> B) (l : list A) (j : nat) :
  map f l !! j = f <$> l !! j.
Proof.
  revert j. induction l as [|x l IH]; intros [|j]; simpl; auto.
Qed.

(** A filter that keeps exactly two elements keeps them from two
    positions, and no other position satisfies the test. *)
Lemma filter_pair_positions (p : A -> bool) (l : list A) (a b : A) :
  List.filter p l = [a; b] ->
  exists ja jb : nat,
    (ja < jb)%nat /\ l !! ja = Some a /\ l !! jb = Some b
    /\ p a = true /\ p b = true
    /\ forall j x, l !! j = Some x -> p x = true -> j = ja \/ j = jb.
Proof.
  assert (Hnone : forall l', List.filter p l' = [] ->
            forall j x, l' !! j = Some x -> p x = true -> False).
  { induction l' as [|y l' IH]; intros Hf j x Hj Hp; [destruct j; discriminate|].
    simpl in Hf. destruct (p y) eqn:Hy; [discriminate|].
    destruct j as [|j]; simpl in Hj.
    - injection Hj as ->. congruence.
    - eauto. }
  assert (Hone : forall l' c, List.filter p l' = [c] ->
            exists jc, l' !! jc = Some c /\ p c = true
              /\ forall j x, l' !! j = Some x -> p x = true -> j = jc).
  { induction l' as [|y l' IH]; intros c Hf; [discriminate|].
    simpl in Hf. destruct (p y) eqn:Hy.
    - injection Hf as -> Hf. exists 0%nat. repeat split; auto.
      intros [|j] x Hj Hp; auto. exfalso. simpl in Hj. eauto.
    - destruct (IH c Hf) as (jc & Hjc & Hpc & Huniq).
      exists (S jc). repeat split; auto.
      intros [|j] x Hj Hp; simpl in Hj.
      + injection Hj as ->. congruence.
      + f_equal. eauto. }
  induction l as [|y l IH]; intros Hf; [discriminate|].
  simpl in Hf. destruct (p y) eqn:Hy.
  - injection Hf as -> Hf.
    destruct (Hone l b Hf) as (jb & Hjb & Hpb & Huniq).
    exists 0%nat, (S jb). repeat split; auto; [lia|].
    intros [|j] x Hj Hp; auto. right. f_equal. simpl in Hj. eauto.
  - destruct (IH Hf) as (ja & jb & Hlt & Hja & Hjb & Hpa & Hpb & Huniq).
    exists (S ja), (S jb). repeat split; auto; [lia|].
    intros [|j] x Hj Hp; simpl in Hj.
    + injection Hj as ->. congruence.
    + destruct (Huniq j x Hj Hp); [left|right]; congruence.
Qed.

End Arrays.

(** ** The click handler *)

Section Flip.
Context `{Host}.

Lemma state_rerender (w : World) : state (rerender w) = state w.
Proof. reflexivity. Qed.

Lemma timers_rerender (w : World) : timers (rerender w) = timers w.
Proof. reflexivity. Qed.

Lemma handleCardClick_outcome (i : Z) (w : World) :
  ClickOutcome i w (handleCardClick i w).
Proof.
  unfold handleCardClick.
  destruct (isChecking (state w)) eqn:Hchk.
  { apply click_ignored. auto. }
  destruct (index (cards (state w)) i) as [clicked|] eqn:Hidx.
  2: { apply click_out_of_range; auto. }
  destruct (isMatched clicked || isFlipped clicked) eqn:Hguard.
  { apply click_ignored. right. eauto. }
  apply orb_false_elim in Hguard as [Hm Hf].
  fold (flipAt i clicked (state w)).
  destruct (List.filter flippedUnmatched (flipAt i clicked (state w)))
    as [|a [|b [|c rest]]] eqn:Hfilter;
    try (apply click_other; auto; rewrite Hfilter; simpl; lia).
  apply (click_second i w clicked a b); auto.
Qed.

End Flip.

(** C3 (as amended). A click while [isChecking] is set, or on a card of
    the deck that is already matched or already face up, returns
    normally and leaves the whole world (state, timers, storage) as it
    was.  A click on a position outside the deck while [isChecking] is
    clear sets no state either, but it does not return: reading
    [cards[clickedIndex].isMatched] throws a TypeError. *)
Theorem C3_blocked_flip `{Host} (i : Z) (w : World) :
  isChecking (state w) = true
  \/ index (cards (state w)) i = None
  \/ (exists card, index (cards (state w)) i = Some card
                   /\ isMatched card || isFlipped card = true) ->
  step w (Click i) = w
  /\ handleCardClick i w =
     if isChecking (state w) then Returned w
     else match index (cards (state w)) i with
          | Some _ => Returned w
          | None => Thrown TypeError
          end.
Proof.
  intros Hblocked. unfold step, handleCardClick.
  destruct (isChecking (state w)); [split; reflexivity|].
  destruct (index (cards (state w)) i) as [clicked|].
  - destruct Hblocked as [Hc|[Hn|(card & Hcard & Hguard)]]; try discriminate.
    injection Hcard as <-. rewrite Hguard. split; reflexivity.
  - split; reflexivity.
Qed.

Lemma C3_blocked_flip_witness :
  let w := world_of (mkState "playing" unshuffledCards (Num 0) true) in
  isChecking (state w) = true /\ step (H := browser) w (Click 3) = w.
Proof.
  split; [reflexivity|].
  apply (C3_blocked_flip (H := browser) 3); left; reflexivity.
Defined.

(** C3 as first stated fails: position 12 of a fresh deck is out
    of range and the click does not return. *)
Lemma C3_out_of_range_throws :
  ~ (forall (i : Z) (w : World),
        index (cards (state w)) i = None
        \/ isChecking (state w) = true
        \/ (exists card, index (cards (state w)) i = Some card
                         /\ isMatched card || isFlipped card = true) ->
        handleCardClick (H := browser) i w = Returned w).
Proof.
  intros Hclaim.
  specialize (Hclaim 12 (world_of (mkState "playing" unshuffledCards (Num 0) false))
                     (or_introl eq_refl)).
  discriminate Hclaim.
Qed.

(** ** Deferred resolution *)

Section Resolution.
Context `{Host}.

Lemma resolution_match (t : Timer) (s : State) :
  timer_isMatch t = true ->
  resolution t s =
  mkState (if num_strict_eq (num_add (timer_matches t) (Num 1)) (Num P)
           then "complete" else gameState s)
          (map markMatched (timer_newCards t))
          (num_add (timer_matches t) (Num 1))
          false.
Proof.
  intros Hm. unfold resolution. rewrite Hm.
  destruct (num_strict_eq _ _); reflexivity.
Qed.

Lemma resolution_mismatch (t : Timer) (s : State) :
  timer_isMatch t = false ->
  resolution t s =
  mkState (gameState s) (map flipBack (timer_newCards t)) (matches s) false.
Proof. intros Hm. unfold resolution. rewrite Hm. reflexivity. Qed.

Lemma timerFires_scheduled (i : Z) (clicked a b : MemoryCard) (w : World) :
  timers w = [] ->
  let t := mkTimer (flipAt i clicked (state w)) (pairKey a =? pairKey b)
                   (matches (state w)) in
  let w1 := scheduled i clicked a b w in
  timers w1 = [t]
  /\ state w1 = mkState (gameState (state w)) (flipAt i clicked (state w))
                        (matches (state w)) true
  /\ state (timerFires w1) = resolution t (state w1)
  /\ timers (timerFires w1) = [].
Proof.
  intros Hq. cbn zeta. unfold timerFires, scheduled.
  rewrite timers_rerender. cbn [timers with_timers]. rewrite Hq.
  cbn. repeat split; reflexivity.
Qed.





End Resolution.

Section Guess.
Context `{Host}.


(** A click on a face-down, unmatched card is accepted when no
    resolution is pending. *)
Lemma click_accepted (j : nat) (card : MemoryCard) (w : World) :
  isChecking (state w) = false ->
  cards (state w) !! j = Some card ->
  isMatched card = false -> isFlipped card = false ->
  exists w', handleCardClick (Z.of_nat j) w = Returned w'
             /\ cards (state w') = <[j := card_with_isFlipped true card]> (cards (state w)).
Proof.
  intros Hchk Hj Hm Hf. unfold handleCardClick.
  rewrite Hchk, index_of_nat, Hj, Hm, Hf. cbn [orb]. rewrite Nat2Z.id.
  destruct (List.filter _ _) as [|a [|b [|c rest]]]; eexists; split; reflexivity.
Qed.

(** The second flip of a guess, seen from the state before it. *)
Lemma second_flip (i : Z) (clicked a b : MemoryCard) (w : World) :
  isChecking (state w) = false ->
  index (cards (state w)) i = Some clicked ->
  isMatched clicked = false -> isFlipped clicked = false ->
  List.filter flippedUnmatched (flipAt i clicked (state w)) = [a; b] ->
  handleCardClick i w = Returned (scheduled i clicked a b w).
Proof.
  intros Hchk Hidx Hm Hf Hfilter. unfold handleCardClick.
  rewrite Hchk, Hidx, Hm, Hf. cbn [orb].
  fold (flipAt i clicked (state w)). rewrite Hfilter. reflexivity.
Qed.

End Guess.



(** C2. Let a click turn a card face up so that exactly two face-up,
    unmatched cards [a] and [b] are on the table, with different pair
    keys, and let nothing else be pending.  Then the click schedules the
    resolution, and when it fires: the two positions hold the same two
    cards (same id, icon and color), now with [isFlipped = false] and
    still [isMatched = false]; no other card changes; [matches] and
    [gameState] are what they were; [isChecking] is cleared; and a
    click on either position is accepted again and puts the card back
    face up ([isFlipped = true]) there. *)
Theorem C2_mismatch_resolution `{Host} (w : World) (i : Z) (clicked a b : MemoryCard) :
  isChecking (state w) = false -> timers w = [] ->
  index (cards (state w)) i = Some clicked ->
  isMatched clicked = false -> isFlipped clicked = false ->
  List.filter flippedUnmatched (flipAt i clicked (state w)) = [a; b] ->
  pairKey a <> pairKey b ->
  exists (w1 : World) (ja jb : nat),
    handleCardClick i w = Returned w1
    /\ List.filter flippedUnmatched (cards (state w1)) = [a; b]
    /\ isChecking (state w1) = true
    /\ ja <> jb
    /\ cards (state w1) !! ja = Some a /\ cards (state w1) !! jb = Some b
    /\ isFlipped a = true /\ isFlipped b = true
    /\ isMatched a = false /\ isMatched b = false
    /\ let w2 := timerFires w1 in
       (exists a' b',
           cards (state w2) !! ja = Some a' /\ cards (state w2) !! jb = Some b'
           /\ isFlipped a' = false /\ isFlipped b' = false
           /\ isMatched a' = false /\ isMatched b' = false
           /\ id a' = id a /\ icon a' = icon a /\ color a' = color a
           /\ id b' = id b /\ icon b' = icon b /\ color b' = color b)
       /\ cards (state w2) !! ja = Some (card_with_isFlipped false a)
       /\ cards (state w2) !! jb = Some (card_with_isFlipped false b)
       /\ length (cards (state w2)) = length (cards (state w1))
       /\ (forall j, j <> ja -> j <> jb ->
             cards (state w2) !! j = cards (state w1) !! j)
       /\ matches (state w2) = matches (state w)
       /\ gameState (state w2) = gameState (state w)
       /\ isChecking (state w2) = false /\ timers w2 = []
       /\ (exists w3, handleCardClick (Z.of_nat ja) w2 = Returned w3
                      /\ cards (state w3) !! ja = Some a
                      /\ cards (state w3) !! ja <> cards (state w2) !! ja)
       /\ (exists w3, handleCardClick (Z.of_nat jb) w2 = Returned w3
                      /\ cards (state w3) !! jb = Some b
                      /\ cards (state w3) !! jb <> cards (state w2) !! jb).
Proof.
  intros Hchk Hquiet Hidx Hm Hf Hfilter Hkey.
  destruct (filter_pair_positions _ _ _ _ Hfilter)
    as (ja & jb & Hlt & Hja & Hjb & Hpa & Hpb & Honly).
  destruct (timerFires_scheduled i clicked a b w Hquiet) as (Hts & Hst & Hfire & Hts2).
  exists (scheduled i clicked a b w), ja, jb.
  assert (Hfa : isFlipped a = true /\ isMatched a = false).
  { unfold flippedUnmatched in Hpa. apply andb_prop in Hpa as [? Hn].
    apply negb_true_iff in Hn. auto. }
  assert (Hfb : isFlipped b = true /\ isMatched b = false).
  { unfold flippedUnmatched in Hpb. apply andb_prop in Hpb as [? Hn].
    apply negb_true_iff in Hn. auto. }
  split; [apply second_flip; assumption|].
  rewrite Hst. cbn [cards isChecking].
  split; [exact Hfilter|]. split; [reflexivity|]. split; [lia|].
  split; [exact Hja|]. split; [exact Hjb|].
  split; [tauto|]. split; [tauto|]. split; [tauto|]. split; [tauto|].
  cbn zeta.
  assert (Hstate2 : state (timerFires (scheduled i clicked a b w)) =
                    mkState (gameState (state w))
                            (map flipBack (flipAt i clicked (state w)))
                            (matches (state w)) false).
  { rewrite Hfire, Hst.
    rewrite resolution_mismatch by (cbn; apply Z.eqb_neq; exact Hkey).
    reflexivity. }
  assert (Hca : map flipBack (flipAt i clicked (state w)) !! ja
                = Some (card_with_isFlipped false a)).
  { rewrite lookup_map, Hja. cbn. unfold flipBack. rewrite Hpa. reflexivity. }
  assert (Hcb : map flipBack (flipAt i clicked (state w)) !! jb
                = Some (card_with_isFlipped false b)).
  { rewrite lookup_map, Hjb. cbn. unfold flipBack. rewrite Hpb. reflexivity. }
  assert (Hagain : forall j c, isFlipped c = true /\ isMatched c = false ->
            map flipBack (flipAt i clicked (state w)) !! j
              = Some (card_with_isFlipped false c) ->
            exists w3,
              handleCardClick (Z.of_nat j) (timerFires (scheduled i clicked a b w))
                = Returned w3
              /\ cards (state w3) !! j = Some c
              /\ cards (state w3) !! j
                 <> map flipBack (flipAt i clicked (state w)) !! j).
  { intros j c [Hcf Hcm] Hj.
    assert (Hacc := click_accepted j (card_with_isFlipped false c)
                      (timerFires (scheduled i clicked a b w))).
    rewrite Hstate2 in Hacc. cbn [cards isChecking] in Hacc.
    destruct (Hacc eq_refl Hj Hcm eq_refl) as (w3 & Hclick & Hcards).
    assert (Hc3 : cards (state w3) !! j = Some c).
    { rewrite Hcards.
      rewrite list_lookup_insert_eq by (eapply lookup_lt_Some; exact Hj).
      destruct c; cbn in *. subst. reflexivity. }
    exists w3. split; [exact Hclick|]. split; [exact Hc3|].
    rewrite Hc3, Hj. intros [= Heq].
    apply (f_equal isFlipped) in Heq. cbn in Heq. congruence. }
  rewrite Hstate2. cbn [cards matches gameState isChecking].
  split.
  { exists (card_with_isFlipped false a), (card_with_isFlipped false b).
    split; [exact Hca|]. split; [exact Hcb|].
    cbn. repeat split; tauto. }
  split; [exact Hca|]. split; [exact Hcb|].
  split; [apply length_map|].
  split.
  { intros j Hna Hnb. rewrite lookup_map.
    destruct (flipAt i clicked (state w) !! j) as [x|] eqn:Hx; [|reflexivity].
    cbn. unfold flipBack.
    destruct (flippedUnmatched x) eqn:Hpx; [|reflexivity].
    destruct (Honly j x Hx Hpx); contradiction. }
  split; [reflexivity|]. split; [reflexivity|].
  split; [reflexivity|]. split; [exact Hts2|].
  split; [apply Hagain; assumption | apply Hagain; assumption].
Qed.

Lemma C2_mismatch_resolution_witness :
  exists w1 ja a',
    handleCardClick (H := browser) 2 demo_one_up = Returned w1
    /\ matches (state (timerFires (H := browser) w1)) = Num 5
    /\ gameState (state (timerFires (H := browser) w1)) = "playing"
    /\ cards (state (timerFires (H := browser) w1)) !! ja = Some a'
    /\ isFlipped a' = false /\ id a' = 0.
Proof.
  destruct (C2_mismatch_resolution (H := browser) demo_one_up 2 demo_star_2
              (card_with_isFlipped true demo_heart_0)
              (card_with_isFlipped true demo_star_2)
              eq_refl eq_refl eq_refl eq_refl eq_refl eq_refl)
    as (w1 & ja & jb & Hclick & _ & _ & _ & _ & _ & _ & _ & _ & _
        & (a' & b' & Ha' & _ & Hdown & _ & _ & _ & Hid & _)
        & _ & _ & _ & _ & Hm & Hg & _).
  { discriminate. }
  exists w1, ja, a'. repeat split; assumption.
Defined.

(** ** At most one pending resolution *)

Section Pending.
Context `{Host}.

Lemma resolving_scheduled (i : Z) (clicked a b : MemoryCard) (w : World) :
  quiet w ->
  List.filter flippedUnmatched (flipAt i clicked (state w)) = [a; b] ->
  resolving (scheduled i clicked a b w).
Proof.
  intros [Hchk Hts] Hfilter. split; [reflexivity|].
  exists a, b. split; [exact Hfilter|].
  unfold scheduled. rewrite timers_rerender. cbn. rewrite Hts. reflexivity.
Qed.

(** After the callback no card is face up and unmatched. *)
Lemma resolution_clears_table (t : Timer) (s : State) :
  List.filter flippedUnmatched (cards (resolution t s)) = [].
Proof.
  assert (Hmark : forall l, List.filter flippedUnmatched (map markMatched l) = []).
  { induction l as [|c l IH]; [reflexivity|]. cbn [map List.filter].
    rewrite IH. unfold markMatched.
    destruct (flippedUnmatched c) eqn:Hc; [|rewrite Hc; reflexivity].
    unfold flippedUnmatched; cbn. rewrite andb_false_r. reflexivity. }
  assert (Hback : forall l, List.filter flippedUnmatched (map flipBack l) = []).
  { induction l as [|c l IH]; [reflexivity|]. cbn [map List.filter].
    rewrite IH. unfold flipBack.
    destruct (flippedUnmatched c) eqn:Hc; [|rewrite Hc; reflexivity].
    reflexivity. }
  destruct (timer_isMatch t) eqn:Ht.
  - rewrite resolution_match by exact Ht. apply Hmark.
  - rewrite resolution_mismatch by exact Ht. apply Hback.
Qed.

Lemma isChecking_resolution (t : Timer) (s : State) :
  isChecking (resolution t s) = false.
Proof.
  destruct (timer_isMatch t) eqn:Ht.
  - rewrite resolution_match by exact Ht. reflexivity.
  - rewrite resolution_mismatch by exact Ht. reflexivity.
Qed.

Lemma resolving_blocks (w : World) (i : Z) :
  resolving w -> handleCardClick i w = Returned w.
Proof. intros [Hchk _]. unfold handleCardClick. rewrite Hchk. reflexivity. Qed.

Lemma resolving_fires (w : World) :
  resolving w ->
  quiet (timerFires w)
  /\ List.filter flippedUnmatched (cards (state (timerFires w))) = [].
Proof.
  intros (Hchk & a & b & Hfilter & Hts). unfold timerFires. rewrite Hts.
  rewrite state_rerender. cbn [state with_state].
  split; [split|].
  - apply isChecking_resolution.
  - reflexivity.
  - apply resolution_clears_table.
Qed.

Lemma pending_step (w : World) (e : Event) :
  is_play e = true -> quiet w \/ resolving w ->
  quiet (step w e) \/ resolving (step w e).
Proof.
  intros Hplay Hw. destruct e as [i| |deck|]; try discriminate; cbn [step].
  - destruct Hw as [Hq|Hr].
    + destruct (handleCardClick_outcome i w)
        as [Hchk Hidx|Hign|clicked a b Hchk Hidx Hm Hf Hfilter|clicked Hchk Hidx Hm Hf Hlen];
        [ auto | auto
        | right; apply resolving_scheduled; assumption
        | left; exact Hq ].
    + rewrite (resolving_blocks w i Hr). auto.
  - destruct Hw as [Hq|Hr].
    + left. unfold timerFires. destruct Hq as [Hchk Hts]. rewrite Hts. split; auto.
    + left. apply resolving_fires. exact Hr.
  - destruct Hw as [[Hchk Hts]|(Hchk & a & b & Hfilter & Hts)].
    + left. split; assumption.
    + right. split; [exact Hchk|]. exists a, b. split; assumption.
Qed.

Lemma pending_run (es : list Event) (w : World) :
  forallb is_play es = true -> quiet w \/ resolving w ->
  quiet (run w es) \/ resolving (run w es).
Proof.
  revert w. induction es as [|e es IH]; intros w Hplay Hw; [exact Hw|].
  cbn in Hplay. apply andb_prop in Hplay as [He Hes].
  cbn [run foldl]. apply (IH (step w e)); auto using pending_step.
Qed.

End Pending.

Section Commit.
Context `{Host}.

(** What the pending callback does when it fires: the two face-up
    cards change together, and nothing else does. *)
Lemma resolving_commits (w : World) :
  resolving w ->
  exists (ja jb : nat) (a b a' b' : MemoryCard),
    ja <> jb
    /\ cards (state w) !! ja = Some a /\ cards (state w) !! jb = Some b
    /\ isFlipped a = true /\ isMatched a = false
    /\ isFlipped b = true /\ isMatched b = false
    /\ cards (state (timerFires w)) !! ja = Some a'
    /\ cards (state (timerFires w)) !! jb = Some b'
    /\ id a' = id a /\ id b' = id b
    /\ ((pairKey a = pairKey b
         /\ isMatched a' = true /\ isMatched b' = true
         /\ isFlipped a' = true /\ isFlipped b' = true)
        \/ (pairKey a <> pairKey b
            /\ isFlipped a' = false /\ isFlipped b' = false
            /\ isMatched a' = false /\ isMatched b' = false))
    /\ length (cards (state (timerFires w))) = length (cards (state w))
    /\ (forall j, j <> ja -> j <> jb ->
          cards (state (timerFires w)) !! j = cards (state w) !! j).
Proof.
  intros (Hchk & a & b & Hfilter & Hts).
  destruct (filter_pair_positions _ _ _ _ Hfilter)
    as (ja & jb & Hlt & Hja & Hjb & Hpa & Hpb & Honly).
  assert (Ha : isFlipped a = true /\ isMatched a = false).
  { unfold flippedUnmatched in Hpa. apply andb_prop in Hpa as [? Hn].
    apply negb_true_iff in Hn. auto. }
  assert (Hb : isFlipped b = true /\ isMatched b = false).
  { unfold flippedUnmatched in Hpb. apply andb_prop in Hpb as [? Hn].
    apply negb_true_iff in Hn. auto. }
  assert (Hothers : forall f : MemoryCard -> MemoryCard,
            (forall x, flippedUnmatched x = false -> f x = x) ->
            forall j, j <> ja -> j <> jb ->
              map f (cards (state w)) !! j = cards (state w) !! j).
  { intros f Hf j Hna Hnb. rewrite lookup_map.
    destruct (cards (state w) !! j) as [x|] eqn:Hx; [|reflexivity].
    cbn. f_equal. apply Hf.
    destruct (flippedUnmatched x) eqn:Hpx; [|reflexivity].
    destruct (Honly j x Hx Hpx); contradiction. }
  unfold timerFires. rewrite Hts, state_rerender. cbn [state with_state].
  destruct (Z.eqb_spec (pairKey a) (pairKey b)) as [Hkey|Hkey].
  - rewrite resolution_match by reflexivity. cbn [cards timer_newCards].
    exists ja, jb, a, b, (card_with_isMatched true a), (card_with_isMatched true b).
    split; [lia|]. split; [exact Hja|]. split; [exact Hjb|].
    split; [tauto|]. split; [tauto|]. split; [tauto|]. split; [tauto|].
    split; [rewrite lookup_map, Hja; cbn; unfold markMatched; rewrite Hpa; reflexivity|].
    split; [rewrite lookup_map, Hjb; cbn; unfold markMatched; rewrite Hpb; reflexivity|].
    split; [reflexivity|]. split; [reflexivity|].
    split; [left; cbn; tauto|].
    split; [apply length_map|].
    apply Hothers. intros x Hx. unfold markMatched. rewrite Hx. reflexivity.
  - rewrite resolution_mismatch by reflexivity. cbn [cards timer_newCards].
    exists ja, jb, a, b, (card_with_isFlipped false a), (card_with_isFlipped false b).
    split; [lia|]. split; [exact Hja|]. split; [exact Hjb|].
    split; [tauto|]. split; [tauto|]. split; [tauto|]. split; [tauto|].
    split; [rewrite lookup_map, Hja; cbn; unfold flipBack; rewrite Hpa; reflexivity|].
    split; [rewrite lookup_map, Hjb; cbn; unfold flipBack; rewrite Hpb; reflexivity|].
    split; [reflexivity|]. split; [reflexivity|].
    split; [right; cbn; tauto|].
    split; [apply length_map|].
    apply Hothers. intros x Hx. unfold flipBack. rewrite Hx. reflexivity.
Qed.

End Commit.

(** C4. Take any sequence of clicks, timer firings and completions from
    a state with no resolution pending.  In the state [w'] it reaches:
    either nothing is pending and [isChecking] is clear, or exactly one
    resolution is pending, [isChecking] is set and two cards are face up
    and unmatched; so at most one resolution is ever pending, and
    [isChecking] is set exactly while one is.  A click that brings the
    number of face-up unmatched cards to two puts the engine in that
    second state.  While it lasts every click returns the world
    unchanged, so only the callback can end it; the callback fires once
    (nothing is pending after it), clears [isChecking], and changes both
    cards in the same update: no face-up unmatched card is left.  The
    update is the one of the two cards that were face up, at their two
    positions: either both become matched and stay face up (equal pair
    keys) or both become face down and stay unmatched (different pair
    keys); they keep their ids, every other position keeps its card and
    the deck keeps its length. *)
Theorem C4_single_pending_resolution `{Host} (w : World) (es : list Event) :
  quiet w -> forallb is_play es = true ->
  let w' := run w es in
  (quiet w' \/ resolving w')
  /\ (length (timers w') <= 1)%nat
  /\ (isChecking (state w') = true <-> timers w' <> [])
  /\ (forall i w'',
        handleCardClick i w' = Returned w'' ->
        cards (state w'') <> cards (state w') ->
        length (List.filter flippedUnmatched (cards (state w''))) = 2%nat ->
        resolving w'')
  /\ (resolving w' ->
        (forall i, handleCardClick i w' = Returned w')
        /\ quiet (timerFires w')
        /\ List.filter flippedUnmatched (cards (state (timerFires w'))) = [])
  /\ (resolving w' ->
        exists (ja jb : nat) (a b a' b' : MemoryCard),
          ja <> jb
          /\ cards (state w') !! ja = Some a /\ cards (state w') !! jb = Some b
          /\ isFlipped a = true /\ isMatched a = false
          /\ isFlipped b = true /\ isMatched b = false
          /\ cards (state (timerFires w')) !! ja = Some a'
          /\ cards (state (timerFires w')) !! jb = Some b'
          /\ id a' = id a /\ id b' = id b
          /\ ((pairKey a = pairKey b
               /\ isMatched a' = true /\ isMatched b' = true
               /\ isFlipped a' = true /\ isFlipped b' = true)
              \/ (pairKey a <> pairKey b
                  /\ isFlipped a' = false /\ isFlipped b' = false
                  /\ isMatched a' = false /\ isMatched b' = false))
          /\ length (cards (state (timerFires w'))) = length (cards (state w'))
          /\ (forall j, j <> ja -> j <> jb ->
                cards (state (timerFires w')) !! j = cards (state w') !! j)).
Proof.
  intros Hq Hplay. cbn zeta.
  assert (Hinv := pending_run es w Hplay (or_introl Hq)).
  set (w' := run w es) in *. clearbody w'.
  split; [exact Hinv|]. split; [|split; [|split; [|split]]].
  - destruct Hinv as [[_ Hts]|(_ & a & b & _ & Hts)]; rewrite Hts; simpl; lia.
  - destruct Hinv as [[Hchk Hts]|(Hchk & a & b & _ & Hts)]; rewrite Hchk, Hts;
      split; congruence.
  - intros i w'' Hclick Hchanged Hlen.
    destruct Hinv as [Hquiet|Hr].
    2: { rewrite (resolving_blocks w' i Hr) in Hclick.
         injection Hclick as <-. contradiction. }
    pose proof (handleCardClick_outcome i w') as Hout. rewrite Hclick in Hout.
    inversion Hout as [ | Hign Heq | clicked a b Hchk Hidx Hm Hf Hfilter Heq
                        | clicked Hchk Hidx Hm Hf Hlen' Heq ]; subst w''.
    + contradiction.
    + apply resolving_scheduled; assumption.
    + exfalso. apply Hlen'. exact Hlen.
  - intros Hr. split; [intros i; apply resolving_blocks; exact Hr|].
    apply resolving_fires. exact Hr.
  - apply resolving_commits.
Qed.

Lemma C4_single_pending_resolution_witness :
  resolving (run (H := browser) demo_one_up [Click 1; Click 7])
  /\ quiet (run (H := browser) demo_one_up [Click 1; Click 7; TimerFires])
  /\ exists (ja jb : nat) (a' b' : MemoryCard),
       ja <> jb
       /\ cards (state (run (H := browser) demo_one_up [Click 1; Click 7; TimerFires]))
            !! ja = Some a'
       /\ cards (state (run (H := browser) demo_one_up [Click 1; Click 7; TimerFires]))
            !! jb = Some b'
       /\ ((isMatched a' = true /\ isMatched b' = true)
           \/ (isFlipped a' = false /\ isFlipped b' = false)).
Proof.
  destruct (C4_single_pending_resolution (H := browser) demo_one_up [Click 1; Click 7]
              (conj eq_refl eq_refl) eq_refl)
    as ([[Hchk _]|Hr] & _ & _ & _ & _ & Hcommit); [discriminate Hchk|].
  split; [exact Hr|]. split.
  - destruct (C4_single_pending_resolution (H := browser) demo_one_up
                [Click 1; Click 7; TimerFires]
                (conj eq_refl eq_refl) eq_refl) as ([Hq|[Hchk _]] & _).
    + exact Hq.
    + discriminate Hchk.
  - destruct (Hcommit Hr)
      as (ja & jb & a & b & a' & b' & Hne & _ & _ & _ & _ & _ & _ & Ha' & Hb' & _ & _
          & Hboth & _).
    exists ja, jb, a', b'. split; [exact Hne|]. split; [exact Ha'|]. split; [exact Hb'|].
    destruct Hboth as [(_ & Hma & Hmb & _)|(_ & Hfa & Hfb & _)]; [left|right]; auto.
Defined.

(** ** Restart while a resolution is pending *)

(** C6 (as amended). [startGame()] installs the new deck, phase
    "playing", zero matches and a clear [isChecking], but it leaves a
    pending callback pending.  When that callback fires it writes the
    state it closed over onto the new game: the cards become the
    resolved cards of the superseded deck, and on a match [matches]
    becomes the superseded count plus one and [gameState] becomes
    "complete" if that count is [P]; on a mismatch [matches] and
    [gameState] stay those of the new game. *)
Theorem C6_stale_resolution_overwrites `{Host}
        (w : World) (t : Timer) (rest : list Timer) (deck : list MemoryCard) :
  timers w = t :: rest ->
  let w1 := startGame deck w in
  state w1 = mkState "playing" deck (Num 0) false
  /\ timers w1 = t :: rest
  /\ let w2 := timerFires w1 in
     cards (state w2) =
       map (if timer_isMatch t then markMatched else flipBack) (timer_newCards t)
     /\ matches (state w2) =
          (if timer_isMatch t then num_add (timer_matches t) (Num 1) else Num 0)
     /\ gameState (state w2) =
          (if timer_isMatch t
              && num_strict_eq (num_add (timer_matches t) (Num 1)) (Num P)
           then "complete" else "playing")
     /\ isChecking (state w2) = false
     /\ timers w2 = rest.
Proof.
  intros Hts. cbn zeta.
  assert (Hts1 : timers (startGame deck w) = t :: rest).
  { unfold startGame. rewrite timers_rerender. exact Hts. }
  split; [reflexivity|]. split; [exact Hts1|].
  assert (Hst1 : state (startGame deck w) = mkState "playing" deck (Num 0) false)
    by reflexivity.
  unfold timerFires. rewrite Hts1, state_rerender, timers_rerender.
  cbn [state with_state timers with_timers]. rewrite Hst1.
  destruct (timer_isMatch t) eqn:Ht.
  - rewrite resolution_match by exact Ht. cbn.
    destruct (num_strict_eq _ _); repeat split; reflexivity.
  - rewrite resolution_mismatch by exact Ht. cbn. repeat split; reflexivity.
Qed.

Lemma C6_stale_resolution_overwrites_witness :
  cards (state (timerFires (H := browser)
                  (startGame (H := browser) (rev unshuffledCards) demo_pending)))
  = map markMatched (cards (state demo_pending)).
Proof.
  exact (proj1 (proj2 (proj2
           (C6_stale_resolution_overwrites (H := browser) demo_pending
              (mkTimer (cards (state demo_pending)) true (Num 5)) []
              (rev unshuffledCards) eq_refl)))).
Defined.

(** C6 as first stated fails: after a restart over a pending
    match, the stale callback replaces the new deck by the old one, sets
    [matches] to 6 and ends the new game. *)
Lemma C6_stale_callback_corrupts_new_game :
  let w1 := startGame (H := browser) (rev unshuffledCards) demo_pending in
  let w2 := timerFires (H := browser) w1 in
  timers demo_pending <> []
  /\ createCards (rev unshuffledCards)
  /\ cards (state w1) = rev unshuffledCards
  /\ matches (state w1) = Num 0 /\ gameState (state w1) = "playing"
  /\ cards (state w2) <> cards (state w1)
  /\ matches (state w2) = Num 6 /\ gameState (state w2) = "complete".
Proof.
  cbn zeta.
  split; [discriminate|]. split; [apply Permutation_rev|].
  split; [reflexivity|]. split; [reflexivity|]. split; [reflexivity|].
  split; [|split; reflexivity].
  intros Heq. apply (f_equal (fun l => isMatched <$> l !! 0%nat)) in Heq.
  vm_compute in Heq. discriminate Heq.
Qed.

(** ** Restoring a snapshot *)

Section Restore.
Context `{Host}.

Lemma find_by_index_lookup (k : Z) (cfgs : list CardConfig) (j : Z) :
  find_by_index (fun i => k =? i) cfgs j =
  if j <=? k then cfgs !! Z.to_nat (k - j) else None.
Proof.
  revert j. induction cfgs as [|cfg rest IH]; intros j; cbn [find_by_index].
  - destruct (j <=? k); reflexivity.
  - rewrite IH. destruct (Z.eqb_spec k j) as [->|Hne].
    + rewrite Z.leb_refl, Z.sub_diag. reflexivity.
    + destruct (Z.leb_spec (j + 1) k), (Z.leb_spec j k); try lia.
      * replace (Z.to_nat (k - j)) with (S (Z.to_nat (k - (j + 1)))) by lia.
        reflexivity.
      * reflexivity.
Qed.

Lemma restoredIcon_lookup (n : Z) :
  restoredIcon n =
  match index CARD_CONFIGS (floor_half n) with
  | Some cfg => config_icon cfg
  | None => Heart
  end.
Proof.
  unfold restoredIcon, index. rewrite find_by_index_lookup.
  rewrite Z.sub_0_r. reflexivity.
Qed.

Lemma restoredIcon_unmapped (n : Z) :
  ~ (0 <= n < 2 * P) -> restoredIcon n = Heart.
Proof.
  intros Hout. rewrite restoredIcon_lookup.
  destruct (index CARD_CONFIGS (floor_half n)) as [cfg|] eqn:Hidx; [|reflexivity].
  exfalso. apply index_Some in Hidx as [Hpos Hk].
  apply lookup_lt_Some in Hk. change (length CARD_CONFIGS) with 6%nat in Hk.
  unfold floor_half in *. apply Hout. change (2 * P) with 12.
  assert (n / 2 < 6) by lia.
  split.
  - destruct (Z.lt_ge_cases n 0) as [Hneg|]; [|assumption].
    assert (n / 2 < 0) by (apply Z.div_lt_upper_bound; lia). lia.
  - destruct (Z.lt_ge_cases n 12) as [|Hbig]; [assumption|].
    assert (6 <= n / 2) by (apply Z.div_le_lower_bound; lia). lia.
Qed.

Lemma restoredIcon_mapped (k : nat) (cfg : CardConfig) (n : Z) :
  CARD_CONFIGS !! k = Some cfg ->
  n = Z.of_nat k * 2 \/ n = Z.of_nat k * 2 + 1 ->
  restoredIcon n = config_icon cfg.
Proof.
  intros Hk Hn. rewrite restoredIcon_lookup.
  assert (Hhalf : floor_half n = Z.of_nat k).
  { destruct Hn as [->| ->]; [apply floor_half_even|apply floor_half_odd]. }
  rewrite Hhalf, index_of_nat, Hk. reflexivity.
Qed.

(** A card whose icon is the one its id stands for survives the
    passage through its stored form. *)
Lemma restoreCard_serializeCard (card : MemoryCard) :
  icon card = restoredIcon (id card) ->
  restoreCard (serializeCard card) = card.
Proof. intros Hicon. destruct card; cbn in *. rewrite Hicon. reflexivity. Qed.

Lemma createCards_icons (deck : list MemoryCard) :
  createCards deck ->
  Forall (fun card => icon card = restoredIcon (id card)) deck.
Proof.
  intros Hperm. eapply Permutation_Forall; [exact Hperm|].
  apply List.Forall_forall. intros card Hin.
  destruct (pushPairs_origin CARD_CONFIGS 0 card Hin)
    as (k & cfg & Hk & Hi & _ & Hid).
  rewrite Hi. symmetry. apply (restoredIcon_mapped k cfg); [exact Hk|].
  rewrite Z.add_0_l in Hid. exact Hid.
Qed.

(** The load effect never touches [isChecking], the timers or the
    storage. *)
Lemma loadEffect_untouched (w : World) :
  isChecking (state (loadEffect w)) = isChecking (state w)
  /\ timers (loadEffect w) = timers w
  /\ sessionStorage (loadEffect w) = sessionStorage w
  /\ onComplete (loadEffect w) = onComplete w.
Proof.
  unfold loadEffect.
  destruct (sessionStorage w !! MEMORY_STORAGE_KEYS_GAME_STATE) as [g|];
    destruct (sessionStorage w !! MEMORY_STORAGE_KEYS_MATCHES) as [m|];
    destruct (sessionStorage w !! MEMORY_STORAGE_KEYS_CARDS) as [c|];
    try destruct (truthy g); try destruct (truthy m); try destruct (truthy c);
    try destruct (JSON_parse c); repeat split; reflexivity.
Qed.

Lemma mount_isChecking (deck : list MemoryCard) (store : gmap string string) :
  isChecking (state (mount deck store)) = false.
Proof.
  unfold mount. rewrite state_rerender. cbn [state with_storage].
  apply loadEffect_untouched.
Qed.

Lemma saveEffect_lookups (s : State) (store : gmap string string) :
  saveEffect s store !! MEMORY_STORAGE_KEYS_GAME_STATE = Some (gameState s)
  /\ saveEffect s store !! MEMORY_STORAGE_KEYS_MATCHES
     = Some (number_toString (matches s))
  /\ saveEffect s store !! MEMORY_STORAGE_KEYS_CARDS
     = Some (JSON_stringify (map serializeCard (cards s)))
  /\ saveEffect s store !! MEMORY_STORAGE_KEYS_IS_CHECKING
     = Some (boolean_toString (isChecking s)).
Proof.
  unfold saveEffect. cbn zeta.
  repeat split;
    repeat first [ apply lookup_insert_eq
                 | rewrite lookup_insert_ne by discriminate ].
Qed.

(** What a save followed by a mount does reproduce, on a host whose
    codecs read back what they wrote for this state: phase, match
    count and cards; [isChecking] comes back clear. *)
Lemma save_mount_reproduces (s : State) (deck : list MemoryCard)
      (store : gmap string string) :
  truthy (gameState s) = true ->
  truthy (number_toString (matches s)) = true ->
  parseInt (number_toString (matches s)) = matches s ->
  truthy (JSON_stringify (map serializeCard (cards s))) = true ->
  JSON_parse (JSON_stringify (map serializeCard (cards s)))
    = Returned (map serializeCard (cards s)) ->
  Forall (fun card => icon card = restoredIcon (id card)) (cards s) ->
  state (mount deck (saveEffect s store)) = setIsChecking false s.
Proof.
  intros Hg Hm Hparse Hc Hjson Hicons.
  destruct (saveEffect_lookups s store) as (Lg & Lm & Lc & _).
  unfold mount. rewrite state_rerender. cbn [state with_storage].
  unfold loadEffect. cbn [sessionStorage state].
  rewrite Lg, Lm, Lc, Hg, Hm, Hc, Hjson, Hparse.
  assert (Hcards : map restoreCard (map serializeCard (cards s)) = cards s).
  { rewrite map_map. rewrite <- (map_id (cards s)) at 2.
    apply map_ext_Forall. eapply Forall_impl; [exact Hicons|].
    intros card Hicon. apply restoreCard_serializeCard. exact Hicon. }
  rewrite Hcards. reflexivity.
Qed.

End Restore.

(** C10. When the stored card array parses, the load effect accepts it
    whole and logs nothing; a card of it whose id lies outside
    [0 .. 2P-1] is restored at its position with its id and flags and
    with the icon [Heart]. *)
Theorem C10_unmapped_id_restores_Heart `{Host}
        (w : World) (text : string) (parsedCards : list SerializableCard) :
  sessionStorage w !! MEMORY_STORAGE_KEYS_CARDS = Some text ->
  truthy text = true ->
  JSON_parse text = Returned parsedCards ->
  let w' := loadEffect w in
  console w' = console w
  /\ cards (state w') = map restoreCard parsedCards
  /\ length (cards (state w')) = length parsedCards
  /\ forall (j : nat) (card : SerializableCard),
       parsedCards !! j = Some card ->
       ~ (0 <= ser_id card < 2 * P) ->
       exists restored,
         cards (state w') !! j = Some restored
         /\ icon restored = Heart
         /\ id restored = ser_id card
         /\ isMatched restored = ser_isMatched card
         /\ isFlipped restored = ser_isFlipped card.
Proof.
  intros Hstored Htruthy Hparse. cbn zeta.
  assert (Hload : console (loadEffect w) = console w
                  /\ cards (state (loadEffect w)) = map restoreCard parsedCards).
  { unfold loadEffect. rewrite Hstored, Htruthy, Hparse. split; reflexivity. }
  destruct Hload as [Hconsole Hcards].
  split; [exact Hconsole|]. split; [exact Hcards|].
  rewrite Hcards. split; [apply length_map|].
  intros j card Hj Hout. exists (restoreCard card).
  rewrite lookup_map, Hj. cbn.
  rewrite (restoredIcon_unmapped _ Hout). repeat split; reflexivity.
Qed.

Lemma C10_unmapped_id_restores_Heart_witness :
  exists restored,
    cards (state (loadEffect (H := browser)
                    (fresh_world unshuffledCards demo_foreign_store))) !! 0%nat
    = Some restored
    /\ icon restored = Heart /\ id restored = 100.
Proof.
  destruct (C10_unmapped_id_restores_Heart (H := browser)
              (fresh_world unshuffledCards demo_foreign_store)
              (Browser.JSON_stringify demo_foreign_cards) demo_foreign_cards
              eq_refl eq_refl eq_refl) as (_ & _ & _ & Hcard).
  destruct (Hcard 0%nat (mkSerializable 100 "text-rose-500" false true 50) eq_refl)
    as (restored & Hj & Hicon & Hid & _).
  { cbn [ser_id]. change (2 * P) with 12. lia. }
  exists restored. repeat split; assumption.
Defined.

(** C9 (as amended). When the stored card array does not parse, the
    load effect logs the error to the console and returns normally; the
    deck, [isChecking], the timers and the storage are left as they
    were.  The phase and the match count are still taken from their own
    entries when these are present: [gameState] is the stored string and
    [matches] is [parseInt] of the stored text. *)
Theorem C9_unparsable_cards_logged `{Host} (w : World) (text : string) (e : JSError) :
  sessionStorage w !! MEMORY_STORAGE_KEYS_CARDS = Some text ->
  truthy text = true ->
  JSON_parse text = Thrown e ->
  let w' := loadEffect w in
  console w' = console_error_loading :: console w
  /\ cards (state w') = cards (state w)
  /\ isChecking (state w') = isChecking (state w)
  /\ timers w' = timers w
  /\ sessionStorage w' = sessionStorage w
  /\ onComplete w' = onComplete w
  /\ gameState (state w') =
       match sessionStorage w !! MEMORY_STORAGE_KEYS_GAME_STATE with
       | Some g => if truthy g then g else gameState (state w)
       | None => gameState (state w)
       end
  /\ matches (state w') =
       match sessionStorage w !! MEMORY_STORAGE_KEYS_MATCHES with
       | Some m => if truthy m then parseInt m else matches (state w)
       | None => matches (state w)
       end.
Proof.
  intros Hstored Htruthy Hparse. cbn zeta.
  unfold loadEffect. rewrite Hstored, Htruthy, Hparse.
  destruct (sessionStorage w !! MEMORY_STORAGE_KEYS_GAME_STATE) as [g|];
    destruct (sessionStorage w !! MEMORY_STORAGE_KEYS_MATCHES) as [m|];
    try destruct (truthy g); try destruct (truthy m);
    repeat split; reflexivity.
Qed.

Lemma C9_unparsable_cards_logged_witness :
  console (loadEffect (H := browser) (fresh_world unshuffledCards demo_broken_store))
  = [console_error_loading].
Proof.
  exact (proj1 (C9_unparsable_cards_logged (H := browser)
                  (fresh_world unshuffledCards demo_broken_store)
                  "garbage" SyntaxError eq_refl eq_refl eq_refl)).
Defined.

(** C9 as first stated fails: with a card array that does not
    parse, the mounted component is not in the fresh "ready" state; it
    has the stored phase and match count over a fresh deck. *)
Lemma C9_partial_restore :
  ~ (forall (deck : list MemoryCard) (store : gmap string string)
            (text : string) (e : JSError),
        store !! MEMORY_STORAGE_KEYS_CARDS = Some text ->
        truthy text = true ->
        JSON_parse (Host := browser) text = Thrown e ->
        state (mount (H := browser) deck store) = initialState deck).
Proof.
  intros Hclaim.
  specialize (Hclaim unshuffledCards demo_broken_store "garbage" SyntaxError
                     eq_refl eq_refl eq_refl).
  apply (f_equal gameState) in Hclaim. vm_compute in Hclaim. discriminate Hclaim.
Qed.

(** A match count that [parseInt] cannot read is not an exception: it
    is restored as [NaN] and nothing is logged. *)
Example unreadable_matches_become_NaN :
  let w := loadEffect (H := browser)
             (fresh_world unshuffledCards {[ MEMORY_STORAGE_KEYS_MATCHES := "three" ]}) in
  matches (state w) = NaN /\ console w = [].
Proof. split; reflexivity. Qed.

(** C5 (the code at the failing input). The pending game [demo_pending]
    has [isChecking] set, and the save effect stores it as "true"; the
    component mounted over that storage has the saved phase, match
    count and cards, but [isChecking] clear: the load effect never reads
    the [memory_is_checking] entry. *)
Theorem C5_isChecking_not_restored :
  let s := state demo_pending in
  let store := saveEffect (H := browser) s ∅ in
  let w := mount (H := browser) (rev unshuffledCards) store in
  isChecking s = true
  /\ store !! MEMORY_STORAGE_KEYS_IS_CHECKING = Some "true"
  /\ gameState (state w) = gameState s
  /\ matches (state w) = matches s
  /\ cards (state w) = cards s
  /\ isChecking (state w) = false
  /\ state w <> s.
Proof.
  cbn zeta.
  assert (Hround : state (mount (H := browser) (rev unshuffledCards)
                            (saveEffect (H := browser) (state demo_pending) ∅))
                   = setIsChecking false (state demo_pending)).
  { apply (save_mount_reproduces (H := browser)); try reflexivity.
    repeat constructor. }
  rewrite Hround.
  split; [reflexivity|].
  split; [apply (saveEffect_lookups (H := browser))|].
  repeat split; try reflexivity.
  intros Heq. apply (f_equal isChecking) in Heq. discriminate Heq.
Qed.

(** ** Where play starts, and a whole game *)

(** A freshly mounted component has nothing pending, whatever the
    storage held. *)
Lemma mount_quiet `{Host} (deck : list MemoryCard) (store : gmap string string) :
  quiet (mount deck store).
Proof.
  split; [apply mount_isChecking|].
  unfold mount. rewrite timers_rerender. cbn [timers with_storage].
  apply loadEffect_untouched.
Qed.

(** So has a game started from such a state. *)
Lemma startGame_quiet `{Host} (deck : list MemoryCard) (w : World) :
  timers w = [] -> quiet (startGame deck w).
Proof.
  intros Hts. split; [reflexivity|].
  unfold startGame. rewrite timers_rerender. exact Hts.
Qed.

(** The six pairs found one after the other: the phase becomes
    "complete" with the sixth, and completion reports 600 and leaves no
    entry of the game in the storage. *)
Example six_matches_score_600 :
  let w0 := startGame (H := browser) unshuffledCards
              (mount (H := browser) unshuffledCards ∅) in
  let guess k := [Click (2 * k); Click (2 * k + 1); TimerFires] in
  let w5 := run (H := browser) w0 (flat_map guess [0; 1; 2; 3; 4]) in
  let w6 := run (H := browser) w5 (guess 5) in
  (gameState (state w5) = "playing" /\ matches (state w5) = Num 5)
  /\ (gameState (state w6) = "complete" /\ matches (state w6) = Num 6)
  /\ onComplete (handleComplete w6) = [Num 600]
  /\ Forall (fun key => sessionStorage (handleComplete w6) !! key = None)
            MEMORY_STORAGE_KEYS.
Proof.
  cbn zeta. repeat split; try reflexivity.
  apply clearSessionStorage_removed.
Qed.

(** Two cards of different pairs: both are face down again after the
    resolution, the count is unchanged and the next click is accepted. *)
Example mismatch_then_flip_again :
  let w0 := startGame (H := browser) unshuffledCards
              (mount (H := browser) unshuffledCards ∅) in
  let w := run (H := browser) w0 [Click 0; Click 2; TimerFires] in
  cards (state w) = unshuffledCards
  /\ matches (state w) = Num 0
  /\ isFlipped <$> cards (state (run (H := browser) w [Click 2])) !! 2%nat = Some true.
Proof. cbn zeta. repeat split; reflexivity. Qed.

(** ** What play does to the cards *)

Section Counting.
Context {A B : Type}.

Lemma filter_length_insert_same (p : A -> bool) (l : list A) (j : nat) (x y : A) :
  l !! j = Some x -> p x = p y ->
  length (List.filter p (<[j := y]> l)) = length (List.filter p l).
Proof.
  revert j. induction l as [|z l IH]; intros [|j] Hj Hp; try discriminate.
  - injection Hj as ->. cbn. rewrite Hp. destruct (p y); reflexivity.
  - cbn in Hj. specialize (IH j Hj Hp). simpl.
    destruct (p z); simpl; rewrite IH; reflexivity.
Qed.

Lemma filter_length_insert_gain (p : A -> bool) (l : list A) (j : nat) (x y : A) :
  l !! j = Some x -> p x = false -> p y = true ->
  length (List.filter p (<[j := y]> l)) = S (length (List.filter p l)).
Proof.
  revert j. induction l as [|z l IH]; intros [|j] Hj Hx Hy; try discriminate.
  - injection Hj as ->. cbn. rewrite Hx, Hy. reflexivity.
  - cbn in Hj. specialize (IH j Hj Hx Hy). simpl.
    destruct (p z); simpl; rewrite IH; reflexivity.
Qed.

Lemma map_insert_same (f : A -> B) (l : list A) (j : nat) (x y : A) :
  l !! j = Some x -> f x = f y -> map f (<[j := y]> l) = map f l.
Proof.
  revert j. induction l as [|z l IH]; intros [|j] Hj Hf; try discriminate.
  - injection Hj as ->. cbn. rewrite Hf. reflexivity.
  - cbn in Hj. specialize (IH j Hj Hf). simpl. rewrite IH. reflexivity.
Qed.

Lemma filter_length_le (p : A -> bool) (l : list A) :
  (length (List.filter p l) <= length l)%nat.
Proof.
  induction l as [|z l IH]; cbn; [lia|]. destruct (p z); cbn; lia.
Qed.

End Counting.

Section CardsInvariant.
Context `{Host}.
Variable Q : list MemoryCard -> Prop.
Hypothesis Q_flip : forall l j clicked,
  l !! j = Some clicked -> isMatched clicked = false -> isFlipped clicked = false ->
  Q l -> Q (<[j := card_with_isFlipped true clicked]> l).
Hypothesis Q_match : forall l a b,
  List.filter flippedUnmatched l = [a; b] -> pairKey a = pairKey b ->
  Q l -> Q (map markMatched l).
Hypothesis Q_back : forall l a b,
  List.filter flippedUnmatched l = [a; b] -> Q l -> Q (map flipBack l).

(** A property of the card array that the flip and the two resolutions
    keep is kept by every event of play. *)
Lemma cards_invariant_step (w : World) (e : Event) :
  is_play e = true -> quiet w \/ resolving w ->
  Q (cards (state w)) -> Q (cards (state (step w e))).
Proof.
  intros Hplay Hw HQ. destruct e as [i| |deck|]; try discriminate; cbn [step].
  - destruct (handleCardClick_outcome i w)
      as [Hchk Hidx|Hign|clicked a b Hchk Hidx Hm Hf Hfilter|clicked Hchk Hidx Hm Hf Hlen];
      try exact HQ;
      apply index_Some in Hidx as [_ Hidx]; apply (Q_flip _ _ _ Hidx Hm Hf HQ).
  - destruct Hw as [[_ Hts]|(_ & a & b & Hfilter & Hts)];
      unfold timerFires; rewrite Hts; [exact HQ|].
    rewrite state_rerender. cbn [state with_state].
    destruct (Z.eqb_spec (pairKey a) (pairKey b)) as [Hkey|Hkey].
    + rewrite resolution_match by reflexivity. eapply Q_match; eauto.
    + rewrite resolution_mismatch by reflexivity. eapply Q_back; eauto.
  - exact HQ.
Qed.

Lemma cards_invariant_run (es : list Event) (w : World) :
  forallb is_play es = true -> quiet w \/ resolving w ->
  Q (cards (state w)) -> Q (cards (state (run w es))).
Proof.
  revert w. induction es as [|e es IH]; intros w Hplay Hw HQ; [exact HQ|].
  cbn in Hplay. apply andb_prop in Hplay as [He Hes].
  cbn [run foldl]. apply (IH (step w e)); auto using pending_step, cards_invariant_step.
Qed.

End CardsInvariant.

Section Faces.

Lemma face_markMatched (card : MemoryCard) : face (markMatched card) = face card.
Proof. unfold markMatched. destruct (flippedUnmatched card); reflexivity. Qed.

Lemma face_flipBack (card : MemoryCard) : face (flipBack card) = face card.
Proof. unfold flipBack. destruct (flippedUnmatched card); reflexivity. Qed.

Lemma isMatched_flipBack (card : MemoryCard) :
  isMatched (flipBack card) = isMatched card.
Proof. unfold flipBack. destruct (flippedUnmatched card); reflexivity. Qed.

Lemma flippedUnmatched_matched (card : MemoryCard) :
  isMatched card = true -> flippedUnmatched card = false.
Proof. intros Hm. unfold flippedUnmatched. rewrite Hm. apply andb_false_r. Qed.

Lemma flippedUnmatched_true (card : MemoryCard) :
  flippedUnmatched card = true <-> isFlipped card = true /\ isMatched card = false.
Proof.
  unfold flippedUnmatched. rewrite andb_true_iff, negb_true_iff. reflexivity.
Qed.

End Faces.

(** X1. An accepted click leaves [gameState] and [matches] alone and
    keeps the length of the deck; either it changes nothing at all, or
    the card at the clicked position was face down and unmatched and
    the position now holds the same card (same id, icon and color,
    still unmatched) with [isFlipped = true], and every other position
    holds the card it held. *)
Theorem click_turns_one_card_up `{Host} (i : Z) (w w' : World) :
  handleCardClick i w = Returned w' ->
  gameState (state w') = gameState (state w)
  /\ matches (state w') = matches (state w)
  /\ length (cards (state w')) = length (cards (state w))
  /\ (w' = w
      \/ exists clicked turned,
           index (cards (state w)) i = Some clicked
           /\ isFlipped clicked = false /\ isMatched clicked = false
           /\ index (cards (state w')) i = Some turned
           /\ isFlipped turned = true /\ isMatched turned = false
           /\ id turned = id clicked /\ icon turned = icon clicked
           /\ color turned = color clicked
           /\ turned = card_with_isFlipped true clicked
           /\ forall j, j <> Z.to_nat i ->
                cards (state w') !! j = cards (state w) !! j).
Proof.
  intros Hclick. pose proof (handleCardClick_outcome i w) as Hout.
  rewrite Hclick in Hout.
  assert (Hturn : forall clicked l,
            index (cards (state w)) i = Some clicked ->
            l = flipAt i clicked (state w) ->
            length l = length (cards (state w))
            /\ index l i = Some (card_with_isFlipped true clicked)
            /\ forall j, j <> Z.to_nat i -> l !! j = cards (state w) !! j).
  { intros clicked l Hidx ->. unfold flipAt.
    apply index_Some in Hidx as [Hpos Hidx].
    split; [apply length_insert|]. split.
    - apply index_Some. split; [exact Hpos|].
      apply list_lookup_insert_eq. eapply lookup_lt_Some; exact Hidx.
    - intros j Hj. apply list_lookup_insert_ne. congruence. }
  inversion Hout as [ | Hign Heq | clicked a b Hchk Hidx Hm Hf Hfilter Heq
                      | clicked Hchk Hidx Hm Hf Hlen Heq ]; subst w'.
  - repeat split; auto.
  - destruct (Hturn clicked _ Hidx eq_refl) as (Hl & Hi & Ho).
    repeat split; try reflexivity; [exact Hl|].
    right. exists clicked, (card_with_isFlipped true clicked).
    cbn [isFlipped isMatched id icon color card_with_isFlipped].
    repeat split; assumption.
  - destruct (Hturn clicked _ Hidx eq_refl) as (Hl & Hi & Ho).
    repeat split; try reflexivity; [exact Hl|].
    right. exists clicked, (card_with_isFlipped true clicked).
    cbn [isFlipped isMatched id icon color card_with_isFlipped].
    repeat split; assumption.
Qed.

Lemma click_turns_one_card_up_witness :
  exists w' turned,
    handleCardClick (H := browser) 1 demo_one_up = Returned w'
    /\ matches (state w') = Num 5
    /\ index (cards (state w')) 1 = Some turned
    /\ isFlipped turned = true /\ id turned = 1.
Proof.
  destruct (click_turns_one_card_up (H := browser) 1 demo_one_up
              (step (H := browser) demo_one_up (Click 1)) eq_refl)
    as (_ & Hm & _ & [Hsame|(clicked & turned & Hc & _ & _ & Ht & Hup & _ & Hid & _)]).
  - apply (f_equal (fun v => isChecking (state v))) in Hsame. discriminate Hsame.
  - exists (step (H := browser) demo_one_up (Click 1)), turned.
    split; [reflexivity|]. split; [exact Hm|]. split; [exact Ht|].
    split; [exact Hup|]. rewrite Hid. injection Hc as <-. reflexivity.
Defined.

(** X2. Through clicks, timer firings and completions from a state
    with nothing pending, the deck keeps its cards: at every position
    the id, the icon and the color stay what they were (so the length
    of the deck stays too). *)
Theorem play_keeps_faces `{Host} (w : World) (es : list Event) :
  quiet w -> forallb is_play es = true ->
  map face (cards (state (run w es))) = map face (cards (state w)).
Proof.
  intros Hq Hplay.
  apply (cards_invariant_run
           (fun l => map face l = map face (cards (state w)))); auto.
  - intros l j clicked Hj _ _ <-. apply (map_insert_same face l j clicked); auto.
  - intros l a b _ _ <-. rewrite map_map. apply map_ext. apply face_markMatched.
  - intros l a b _ <-. rewrite map_map. apply map_ext. apply face_flipBack.
Qed.

Lemma play_keeps_faces_witness :
  map face (cards (state (run (H := browser) demo_one_up [Click 1; TimerFires; Click 4])))
  = map face (cards (state demo_one_up)).
Proof.
  exact (play_keeps_faces (H := browser) demo_one_up [Click 1; TimerFires; Click 4]
           (conj eq_refl eq_refl) eq_refl).
Defined.

Section Partners.

Lemma partnered_unmatched (l : list MemoryCard) :
  Forall (fun card => isFlipped card = false /\ isMatched card = false) l ->
  partnered l.
Proof.
  intros Hall j card Hj Hm.
  assert (Hin : In card l) by (apply list_elem_of_In, list_elem_of_lookup; eauto).
  destruct (proj1 (List.Forall_forall _ _) Hall card Hin) as [_ Hm'].
  congruence.
Qed.

Lemma partnered_flip (l : list MemoryCard) (j : nat) (clicked : MemoryCard) :
  l !! j = Some clicked -> isMatched clicked = false ->
  partnered l -> partnered (<[j := card_with_isFlipped true clicked]> l).
Proof.
  intros Hj Hclicked Hp j0 card Hj0 Hm.
  destruct (decide (j0 = j)) as [->|Hne].
  - rewrite list_lookup_insert_eq in Hj0 by (eapply lookup_lt_Some; exact Hj).
    injection Hj0 as <-. cbn in Hm. congruence.
  - rewrite list_lookup_insert_ne in Hj0 by congruence.
    destruct (Hp j0 card Hj0 Hm) as (j' & card' & Hne' & Hj' & Hm' & Hkey).
    exists j', card'. repeat split; auto.
    rewrite list_lookup_insert_ne; [exact Hj'|].
    intros <-. congruence.
Qed.

Lemma partnered_markMatched (l : list MemoryCard) (a b : MemoryCard) :
  List.filter flippedUnmatched l = [a; b] -> pairKey a = pairKey b ->
  partnered l -> partnered (map markMatched l).
Proof.
  intros Hfilter Hkey Hp j card Hj Hm.
  destruct (filter_pair_positions _ _ _ _ Hfilter)
    as (ja & jb & Hlt & Hja & Hjb & Hpa & Hpb & Honly).
  assert (Hnew : forall jx x, l !! jx = Some x -> flippedUnmatched x = true ->
            map markMatched l !! jx = Some (card_with_isMatched true x)).
  { intros jx x Hx Hpx. rewrite lookup_map, Hx. cbn. unfold markMatched.
    rewrite Hpx. reflexivity. }
  rewrite lookup_map in Hj.
  destruct (l !! j) as [old|] eqn:Hold; [|discriminate].
  cbn in Hj. injection Hj as <-. unfold markMatched in Hm |- *.
  destruct (flippedUnmatched old) eqn:Hpo.
  - destruct (Honly j old Hold Hpo) as [->| ->].
    + rewrite Hja in Hold. injection Hold as <-.
      exists jb, (card_with_isMatched true b).
      split; [lia|]. split; [apply Hnew; assumption|]. split; [reflexivity|].
      unfold pairKey in *. cbn. congruence.
    + rewrite Hjb in Hold. injection Hold as <-.
      exists ja, (card_with_isMatched true a).
      split; [lia|]. split; [apply Hnew; assumption|]. split; [reflexivity|].
      unfold pairKey in *. cbn. congruence.
  - destruct (Hp j old Hold Hm) as (j' & card' & Hne' & Hj' & Hm' & Hkey').
    exists j', card'. split; [exact Hne'|]. split; [|split; assumption].
    rewrite lookup_map, Hj'. cbn. unfold markMatched.
    rewrite (flippedUnmatched_matched card' Hm'). reflexivity.
Qed.

Lemma partnered_flipBack (l : list MemoryCard) :
  partnered l -> partnered (map flipBack l).
Proof.
  intros Hp j card Hj Hm.
  rewrite lookup_map in Hj.
  destruct (l !! j) as [old|] eqn:Hold; [|discriminate].
  cbn in Hj. injection Hj as <-.
  rewrite isMatched_flipBack in Hm.
  destruct (Hp j old Hold Hm) as (j' & card' & Hne' & Hj' & Hm' & Hkey').
  exists j', card'. repeat split; auto.
  - rewrite lookup_map, Hj'. cbn. unfold flipBack.
    rewrite (flippedUnmatched_matched card' Hm'). reflexivity.
  - rewrite Hkey'. unfold flipBack.
    rewrite (flippedUnmatched_matched old Hm). reflexivity.
Qed.

End Partners.

(** X3. The engine only ever matches true pairs.  If every matched card
    has a matched partner with the same pair key at another position,
    this is still so after any sequence of clicks, timer firings and
    completions from a state with nothing pending. *)
Theorem play_matches_only_pairs `{Host} (w : World) (es : list Event) :
  quiet w -> partnered (cards (state w)) -> forallb is_play es = true ->
  partnered (cards (state (run w es))).
Proof.
  intros Hq Hp Hplay.
  apply (cards_invariant_run partnered); auto.
  - intros l j clicked Hj Hm _. apply partnered_flip; assumption.
  - intros l a b. apply partnered_markMatched.
  - intros l a b _. apply partnered_flipBack.
Qed.

Lemma play_matches_only_pairs_witness :
  partnered (cards (state (run (H := browser)
                             (startGame (H := browser) unshuffledCards demo_one_up)
                             [Click 2; Click 3; TimerFires; Click 0; Click 5; TimerFires]))).
Proof.
  apply (play_matches_only_pairs (H := browser)).
  - split; reflexivity.
  - apply partnered_unmatched. apply pushPairs_face_down.
  - reflexivity.
Defined.

(** ** The course of a game *)

Section Progress.
Context `{Host}.

Lemma matchedCount_cons (card : MemoryCard) (l : list MemoryCard) :
  matchedCount (card :: l) =
  ((if isMatched card then 1 else 0) + matchedCount l)%nat.
Proof. unfold matchedCount. simpl. destruct (isMatched card); reflexivity. Qed.

Lemma faceUpCount_cons (card : MemoryCard) (l : list MemoryCard) :
  faceUpCount (card :: l) =
  ((if flippedUnmatched card then 1 else 0) + faceUpCount l)%nat.
Proof. unfold faceUpCount. simpl. destruct (flippedUnmatched card); reflexivity. Qed.

Lemma matchedCount_markMatched (l : list MemoryCard) :
  matchedCount (map markMatched l) = (matchedCount l + faceUpCount l)%nat.
Proof.
  induction l as [|card l IH]; [reflexivity|].
  cbn [map]. rewrite !matchedCount_cons, faceUpCount_cons, IH.
  unfold markMatched, flippedUnmatched.
  destruct (isMatched card) eqn:Hm, (isFlipped card) eqn:Hf; cbn;
    rewrite ?Hm; lia.
Qed.

Lemma matchedCount_flipBack (l : list MemoryCard) :
  matchedCount (map flipBack l) = matchedCount l.
Proof.
  induction l as [|card l IH]; [reflexivity|].
  cbn [map]. rewrite !matchedCount_cons, IH, isMatched_flipBack. reflexivity.
Qed.

Lemma face_down_counts (l : list MemoryCard) :
  Forall (fun card => isFlipped card = false /\ isMatched card = false) l ->
  faceUpCount l = 0%nat /\ matchedCount l = 0%nat.
Proof.
  induction 1 as [|card l [Hf Hm] _ [IHf IHm]]; [split; reflexivity|].
  rewrite faceUpCount_cons, matchedCount_cons, IHf, IHm.
  unfold flippedUnmatched. rewrite Hf, Hm. split; reflexivity.
Qed.

Lemma all_matched (l : list MemoryCard) :
  matchedCount l = length l -> Forall (fun card => isMatched card = true) l.
Proof.
  induction l as [|card l IH]; intros Hlen; [constructor|].
  rewrite matchedCount_cons in Hlen. cbn [length] in Hlen.
  pose proof (filter_length_le isMatched l) as Hle. fold (matchedCount l) in Hle.
  destruct (isMatched card) eqn:Hm; [|lia].
  constructor; [exact Hm|]. apply IH. lia.
Qed.

Lemma in_progress_flipAt (m : nat) (i : Z) (clicked : MemoryCard) (s : State) (b : bool) :
  index (cards s) i = Some clicked ->
  in_progress m s ->
  in_progress m (setIsChecking b (setCards (flipAt i clicked s) s)).
Proof.
  intros Hidx (Hmatches & Hcount & Hlen & Hle & Hphase).
  apply index_Some in Hidx as [_ Hidx].
  unfold in_progress. cbn [setIsChecking setCards matches cards gameState].
  split; [exact Hmatches|]. split; [|split; [|split; [exact Hle|exact Hphase]]].
  - unfold matchedCount, flipAt.
    rewrite (filter_length_insert_same isMatched _ _ clicked
               (card_with_isFlipped true clicked) Hidx eq_refl).
    exact Hcount.
  - unfold flipAt. rewrite length_insert. exact Hlen.
Qed.

Lemma in_progress_resolution (m : nat) (s : State) (a b : MemoryCard) :
  List.filter flippedUnmatched (cards s) = [a; b] ->
  in_progress m s ->
  exists m', in_progress m'
               (resolution (mkTimer (cards s) (pairKey a =? pairKey b) (matches s)) s).
Proof.
  intros Hfilter (Hmatches & Hcount & Hlen & Hle & Hphase).
  destruct (pairKey a =? pairKey b) eqn:Hkey.
  - rewrite resolution_match by reflexivity. cbn [timer_newCards timer_matches].
    assert (Hnew : matchedCount (map markMatched (cards s)) = (2 * S m)%nat).
    { rewrite matchedCount_markMatched, Hcount. unfold faceUpCount.
      rewrite Hfilter. cbn. lia. }
    assert (Hbound : (S m <= length CARD_CONFIGS)%nat).
    { pose proof (filter_length_le isMatched (map markMatched (cards s))) as Hb.
      fold (matchedCount (map markMatched (cards s))) in Hb.
      rewrite Hnew, length_map, Hlen in Hb. lia. }
    exists (S m). rewrite Hmatches. cbn [num_add num_strict_eq].
    unfold in_progress. cbn [matches cards gameState].
    split; [f_equal; lia|]. split; [exact Hnew|].
    split; [rewrite length_map; exact Hlen|]. split; [exact Hbound|].
    unfold P. rewrite Hphase.
    destruct (Nat.eqb_spec m (length CARD_CONFIGS)); [lia|].
    destruct (Nat.eqb_spec (S m) (length CARD_CONFIGS)) as [Heq|Hne];
      case_eq_Z; try reflexivity; lia.
  - rewrite resolution_mismatch by reflexivity. cbn [timer_newCards].
    exists m. unfold in_progress. cbn [matches cards gameState].
    split; [exact Hmatches|]. split; [rewrite matchedCount_flipBack; exact Hcount|].
    split; [rewrite length_map; exact Hlen|]. split; [exact Hle|exact Hphase].
Qed.

End Progress.

Section Course.
Context `{Host}.

Lemma on_course_step (w : World) (e : Event) :
  is_play e = true -> on_course w -> on_course (step w e).
Proof.
  intros Hplay [Hpending (m & Hm)].
  destruct e as [i| |deck|]; try discriminate; cbn [step].
  - destruct Hpending as [[Hq Hup]|Hr].
    2: { rewrite (resolving_blocks w i Hr).
         split; [right; exact Hr|exists m; exact Hm]. }
    destruct (handleCardClick_outcome i w)
      as [Hchk Hidx|Hign|clicked a b Hchk Hidx Hmt Hf Hfilter|clicked Hchk Hidx Hmt Hf Hlen];
      try (split; [left; split; assumption|exists m; exact Hm]).
    + split; [right; apply resolving_scheduled; assumption|].
      exists m. unfold scheduled. rewrite state_rerender. cbn [state with_state].
      apply in_progress_flipAt; assumption.
    + assert (Hgain : faceUpCount (flipAt i clicked (state w))
                      = S (faceUpCount (cards (state w)))).
      { apply index_Some in Hidx as [_ Hidx]. unfold faceUpCount, flipAt.
        apply (filter_length_insert_gain flippedUnmatched _ _ clicked); auto.
        - unfold flippedUnmatched. rewrite Hf. reflexivity.
        - unfold flippedUnmatched. cbn. rewrite Hmt. reflexivity. }
      split.
      * left. split; [exact Hq|].
        unfold flipped. rewrite state_rerender. cbn [state with_state setCards cards].
        fold (faceUpCount (flipAt i clicked (state w))) in Hlen. lia.
      * exists m. unfold flipped. rewrite state_rerender. cbn [state with_state].
        destruct (state w) as [g c mt chk] eqn:Hs. cbn in Hchk. subst chk.
        apply (in_progress_flipAt m i clicked (mkState g c mt false) false Hidx Hm).
  - destruct Hpending as [[Hq Hup]|Hr].
    + unfold timerFires. destruct Hq as [Hchk Hts]. rewrite Hts.
      split; [left; repeat split; assumption|exists m; exact Hm].
    + destruct (resolving_fires w Hr) as [Hq Hclear].
      split.
      * left. split; [exact Hq|]. unfold faceUpCount. rewrite Hclear. cbn. lia.
      * destruct Hr as (Hchk & a & b & Hfilter & Hts).
        unfold timerFires. rewrite Hts, state_rerender. cbn [state with_state].
        exact (in_progress_resolution m (state w) a b Hfilter Hm).
  - split; [|exists m; exact Hm].
    destruct Hpending as [[[Hchk Hts] Hup]|(Hchk & a & b & Hfilter & Hts)].
    + left. repeat split; assumption.
    + right. split; [exact Hchk|]. exists a, b. split; assumption.
Qed.

Lemma on_course_run (es : list Event) (w : World) :
  forallb is_play es = true -> on_course w -> on_course (run w es).
Proof.
  revert w. induction es as [|e es IH]; intros w Hplay Hw; [exact Hw|].
  cbn in Hplay. apply andb_prop in Hplay as [He Hes].
  cbn [run foldl]. apply (IH (step w e)); auto using on_course_step.
Qed.

Lemma on_course_start (deck : list MemoryCard) (w : World) :
  timers w = [] -> createCards deck -> on_course (startGame deck w).
Proof.
  intros Hts Hdeck.
  assert (Hdown : Forall (fun card => isFlipped card = false /\ isMatched card = false)
                         deck).
  { eapply Permutation_Forall; [exact Hdeck|]. apply pushPairs_face_down. }
  destruct (face_down_counts deck Hdown) as [Hup Hmatched].
  split.
  - left. split.
    + split; [reflexivity|]. unfold startGame. rewrite timers_rerender. exact Hts.
    + unfold startGame. rewrite state_rerender.
      cbn [state with_state with_storage setIsChecking setMatches setCards cards].
      rewrite Hup. lia.
  - exists 0%nat. unfold startGame. rewrite state_rerender.
    unfold in_progress.
    cbn [state with_state with_storage setIsChecking setMatches setCards
         setGameState cards matches gameState].
    split; [reflexivity|]. split; [exact Hmatched|].
    split; [|split; [lia|reflexivity]].
    rewrite <- (Permutation_length Hdeck). unfold unshuffledCards.
    apply pushPairs_length.
Qed.

(** Once every card is matched and nothing is pending, no event of
    play changes the state or schedules anything. *)
Lemma all_matched_frozen (es : list Event) (w : World) :
  quiet w -> Forall (fun card => isMatched card = true) (cards (state w)) ->
  forallb is_play es = true ->
  state (run w es) = state w /\ timers (run w es) = [].
Proof.
  intros Hq Hall. revert w Hq Hall.
  induction es as [|e es IH]; intros w Hq Hall Hplay; [split; [reflexivity|apply Hq]|].
  cbn in Hplay. apply andb_prop in Hplay as [He Hes].
  assert (Hstep : state (step w e) = state w /\ timers (step w e) = []).
  { destruct Hq as [Hchk Hts].
    assert (Hno : forall clicked i,
              index (cards (state w)) i = Some clicked -> isMatched clicked = false ->
              False).
    { intros clicked i Hidx Hm. apply index_Some in Hidx as [_ Hidx].
      assert (Hin : In clicked (cards (state w)))
        by (apply list_elem_of_In, list_elem_of_lookup; eauto).
      pose proof (proj1 (List.Forall_forall _ _) Hall clicked Hin). congruence. }
    destruct e as [i| |deck|]; try discriminate; cbn [step].
    - destruct (handleCardClick_outcome i w)
        as [?|?|clicked a b _ Hidx Hm _ _|clicked _ Hidx Hm _ _]; auto;
        exfalso; eapply Hno; eauto.
    - unfold timerFires. rewrite Hts. auto.
    - auto. }
  destruct Hstep as [Hst Hts].
  cbn [run foldl]. destruct (IH (step w e)) as [Hst' Hts'].
  - split; [rewrite Hst; apply Hq|exact Hts].
  - rewrite Hst. exact Hall.
  - exact Hes.
  - split; [rewrite <- Hst; exact Hst'|exact Hts'].
Qed.

End Course.

(** X4. In a game started with a deck of [createCards()] while no
    timer is pending, after any sequence of clicks, timer firings and
    completions: [matches] is an integer [m] between 0 and 6, exactly
    [2 m] cards are matched, the phase is "complete" when [m = 6] and
    "playing" otherwise, at most two unmatched cards are face up, and
    the deck still has 12 cards. *)
Theorem game_counts_agree `{Host}
        (w : World) (deck : list MemoryCard) (es : list Event) :
  timers w = [] -> createCards deck -> forallb is_play es = true ->
  let w' := run (startGame deck w) es in
  exists m : nat,
    matches (state w') = Num (Z.of_nat m)
    /\ (m <= 6)%nat
    /\ matchedCount (cards (state w')) = (2 * m)%nat
    /\ (gameState (state w') = "complete" <-> m = 6%nat)
    /\ (gameState (state w') = "playing" <-> (m < 6)%nat)
    /\ (faceUpCount (cards (state w')) <= 2)%nat
    /\ length (cards (state w')) = 12%nat.
Proof.
  intros Hts Hdeck Hplay. cbn zeta.
  destruct (on_course_run es _ Hplay (on_course_start deck w Hts Hdeck))
    as [Hpending (m & Hmatches & Hcount & Hlen & Hle & Hphase)].
  change (length CARD_CONFIGS) with 6%nat in *.
  exists m. split; [exact Hmatches|]. split; [exact Hle|]. split; [exact Hcount|].
  split; [|split; [|split; [|exact Hlen]]].
  - rewrite Hphase.
    destruct (Nat.eqb_spec m 6); split; intros; try discriminate; auto; lia.
  - rewrite Hphase.
    destruct (Nat.eqb_spec m 6); split; intros; try discriminate; auto; lia.
  - destruct Hpending as [[_ Hup]|(_ & a & b & Hfilter & _)]; [lia|].
    unfold faceUpCount. rewrite Hfilter. cbn. lia.
Qed.

Lemma game_counts_agree_witness :
  exists m : nat,
    matches (state (run (H := browser)
                      (startGame (H := browser) (rev unshuffledCards) demo_one_up)
                      [Click 0; Click 1; TimerFires; Click 4])) = Num (Z.of_nat m)
    /\ (m <= 6)%nat.
Proof.
  destruct (game_counts_agree (H := browser) demo_one_up (rev unshuffledCards)
              [Click 0; Click 1; TimerFires; Click 4]
              eq_refl (Permutation_rev unshuffledCards) eq_refl)
    as (m & Hm & Hle & _).
  exists m. split; assumption.
Defined.

(** X5. In such a game the phase "complete" is final for play: when it
    is reached every card is matched, and no later click, timer firing
    or completion changes the state or leaves a timer pending. *)
Theorem complete_game_is_final `{Host}
        (w : World) (deck : list MemoryCard) (es es' : list Event) :
  timers w = [] -> createCards deck ->
  forallb is_play es = true -> forallb is_play es' = true ->
  let w' := run (startGame deck w) es in
  gameState (state w') = "complete" ->
  Forall (fun card => isMatched card = true) (cards (state w'))
  /\ state (run w' es') = state w'
  /\ timers (run w' es') = [].
Proof.
  intros Hts Hdeck Hplay Hplay'. cbn zeta. intros Hdone.
  destruct (on_course_run es _ Hplay (on_course_start deck w Hts Hdeck))
    as [Hpending (m & Hmatches & Hcount & Hlen & Hle & Hphase)].
  assert (Hm : m = length CARD_CONFIGS).
  { rewrite Hphase in Hdone.
    destruct (Nat.eqb_spec m (length CARD_CONFIGS)); [assumption|discriminate]. }
  assert (Hall : Forall (fun card => isMatched card = true)
                        (cards (state (run (startGame deck w) es)))).
  { apply all_matched. rewrite Hcount, Hlen, Hm. reflexivity. }
  assert (Hq : quiet (run (startGame deck w) es)).
  { destruct Hpending as [[Hq _]|(_ & a & b & Hfilter & _)]; [exact Hq|].
    exfalso.
    assert (Hin : In a (List.filter flippedUnmatched
                          (cards (state (run (startGame deck w) es)))))
      by (rewrite Hfilter; left; reflexivity).
    apply filter_In in Hin as [Hin Hup].
    pose proof (proj1 (List.Forall_forall _ _) Hall a Hin) as Hma.
    rewrite (flippedUnmatched_matched a Hma) in Hup. discriminate. }
  split; [exact Hall|]. apply all_matched_frozen; assumption.
Qed.

Lemma complete_game_is_final_witness :
  let guess k := [Click (2 * k); Click (2 * k + 1); TimerFires] in
  let w' := run (H := browser) (startGame (H := browser) unshuffledCards demo_one_up)
                (flat_map guess [0; 1; 2; 3; 4; 5]) in
  gameState (state w') = "complete"
  /\ state (run (H := browser) w' [Click 3; Complete; Click 0]) = state w'.
Proof.
  cbn zeta. split; [reflexivity|].
  exact (proj1 (proj2 (complete_game_is_final (H := browser) demo_one_up unshuffledCards
           (flat_map (fun k => [Click (2 * k); Click (2 * k + 1); TimerFires])
                     [0; 1; 2; 3; 4; 5])
           [Click 3; Complete; Click 0] eq_refl (Permutation_refl _) eq_refl eq_refl
           eq_refl))).
Defined.

(** ** The storage follows the state *)

Section Mirror.
Context `{Host}.

Lemma game_key_dec (key : string) :
  In key MEMORY_STORAGE_KEYS \/ ~ In key MEMORY_STORAGE_KEYS.
Proof. destruct (In_dec string_dec key MEMORY_STORAGE_KEYS); auto. Qed.

Lemma saveEffect_other (s : State) (store : gmap string string) (key : string) :
  ~ In key MEMORY_STORAGE_KEYS -> saveEffect s store !! key = store !! key.
Proof.
  unfold saveEffect, MEMORY_STORAGE_KEYS; cbn [In]. intros Hkey.
  rewrite !lookup_insert_ne; try reflexivity; intros Heq; apply Hkey; auto 6.
Qed.

(** The value the save effect stores under a key of the game. *)
Lemma saveEffect_game_key (s1 s2 : State) (st1 st2 : gmap string string) (key : string) :
  In key MEMORY_STORAGE_KEYS ->
  s1 = s2 -> saveEffect s1 st1 !! key = saveEffect s2 st2 !! key.
Proof.
  intros Hkey <-.
  destruct (saveEffect_lookups s1 st1) as (A1 & A2 & A3 & A4).
  destruct (saveEffect_lookups s1 st2) as (B1 & B2 & B3 & B4).
  unfold MEMORY_STORAGE_KEYS in Hkey. cbn [In] in Hkey.
  destruct Hkey as [<-|[<-|[<-|[<-|[]]]]]; congruence.
Qed.

Lemma clearSessionStorage_game_key (store : gmap string string) (key : string) :
  In key MEMORY_STORAGE_KEYS -> clearSessionStorage store !! key = None.
Proof.
  intros Hkey.
  exact (proj1 (List.Forall_forall _ _) (clearSessionStorage_removed store) key Hkey).
Qed.

Lemma synced_rerender (w : World) : synced (rerender w).
Proof. unfold synced, rerender. cbn. apply saveEffect_lookups. Qed.

Lemma synced_step (w : World) (e : Event) :
  is_complete e = false -> synced w -> synced (step w e).
Proof.
  intros He Hw. destruct e as [i| |deck|]; try discriminate; cbn [step].
  - destruct (handleCardClick_outcome i w); try assumption;
      unfold scheduled, flipped; apply synced_rerender.
  - unfold timerFires. destruct (timers w); auto using synced_rerender.
  - apply synced_rerender.
Qed.

Lemma storage_other_step (w : World) (e : Event) (key : string) :
  ~ In key MEMORY_STORAGE_KEYS ->
  sessionStorage (step w e) !! key = sessionStorage w !! key.
Proof.
  intros Hkey.
  assert (Hre : forall v, sessionStorage (rerender v) !! key = sessionStorage v !! key).
  { intros v. unfold rerender. cbn. apply saveEffect_other. exact Hkey. }
  destruct e as [i| |deck|]; cbn [step].
  - destruct (handleCardClick_outcome i w); try reflexivity;
      unfold scheduled, flipped; rewrite Hre; reflexivity.
  - unfold timerFires. destruct (timers w); [reflexivity|]. rewrite Hre. reflexivity.
  - unfold startGame. rewrite Hre. cbn. apply clearSessionStorage_other. exact Hkey.
  - cbn. apply clearSessionStorage_other. exact Hkey.
Qed.

End Mirror.

(** X6. From the mount on, as long as [handleComplete] is not called,
    the storage mirrors the state: after every event the four entries
    hold the current phase, match count, card array and checking flag
    as the save effect writes them.  In particular the entries are
    present again right after [startGame], which removes them before
    the render that follows saves the new game. *)
Theorem storage_mirrors_state `{Host}
        (deck : list MemoryCard) (store : gmap string string) (es : list Event) :
  forallb (fun e => negb (is_complete e)) es = true ->
  synced (run (mount deck store) es).
Proof.
  assert (Hrun : forall es w,
            forallb (fun e => negb (is_complete e)) es = true ->
            synced w -> synced (run w es)).
  { clear es. induction es as [|e es IH]; intros w Hes Hw; [exact Hw|].
    cbn in Hes. apply andb_prop in Hes as [He Hes].
    apply negb_true_iff in He.
    cbn [run foldl]. apply (IH (step w e)); auto using synced_step. }
  intros Hes. apply Hrun; [exact Hes|]. unfold mount. apply synced_rerender.
Qed.

Lemma storage_mirrors_state_witness :
  sessionStorage (run (H := browser) (mount (H := browser) unshuffledCards ∅)
                    [StartGame (rev unshuffledCards); Click 0; Click 1])
    !! MEMORY_STORAGE_KEYS_IS_CHECKING = Some "true".
Proof.
  exact (proj2 (proj2 (proj2
           (storage_mirrors_state (H := browser) unshuffledCards ∅
              [StartGame (rev unshuffledCards); Click 0; Click 1] eq_refl)))).
Defined.

(** X7. No event ever touches an entry of the session storage other
    than the four of the game: whatever another part of the page stored
    under another key is there, unchanged, after any sequence of
    events. *)
Theorem foreign_entries_untouched `{Host}
        (w : World) (es : list Event) (key : string) :
  ~ In key MEMORY_STORAGE_KEYS ->
  sessionStorage (run w es) !! key = sessionStorage w !! key.
Proof.
  intros Hkey. revert w. induction es as [|e es IH]; intros w; [reflexivity|].
  cbn [run foldl]. change (foldl step (step w e) es) with (run (step w e) es).
  rewrite IH. apply storage_other_step. exact Hkey.
Qed.

Lemma foreign_entries_untouched_witness :
  sessionStorage
    (run (H := browser)
       (mkWorld (initialState unshuffledCards) [] {[ "theme" := "dark" ]} [] [])
       [StartGame unshuffledCards; Click 0; Click 1; TimerFires; Complete])
    !! "theme" = Some "dark".
Proof.
  rewrite (foreign_entries_untouched (H := browser)); [reflexivity|].
  cbn. intros [Heq|[Heq|[Heq|[Heq|[]]]]]; discriminate Heq.
Defined.

(** X8. How saving and clearing compose.  A save overwrites an earlier
    save entirely; clearing after a save leaves what clearing alone
    leaves; clearing twice is clearing once. *)
Theorem save_and_clear_compose `{Host}
        (s1 s2 : State) (store : gmap string string) :
  saveEffect s2 (saveEffect s1 store) = saveEffect s2 store
  /\ clearSessionStorage (saveEffect s1 store) = clearSessionStorage store
  /\ clearSessionStorage (clearSessionStorage store) = clearSessionStorage store.
Proof.
  split; [|split]; apply map_eq; intros key;
    destruct (game_key_dec key) as [Hkey|Hkey].
  - apply saveEffect_game_key; auto.
  - rewrite !saveEffect_other by exact Hkey. reflexivity.
  - rewrite !clearSessionStorage_game_key by exact Hkey. reflexivity.
  - rewrite !clearSessionStorage_other by exact Hkey.
    apply saveEffect_other. exact Hkey.
  - rewrite !clearSessionStorage_game_key by exact Hkey. reflexivity.
  - rewrite !clearSessionStorage_other by exact Hkey. reflexivity.
Qed.

(** ** What the rendered controls allow *)

Section Screen.
Context `{Host}.

Lemma In_when {A} (b : bool) (l : list A) (x : A) :
  In x (if b then l else []) <-> b = true /\ In x l.
Proof. destruct b; cbn; intuition discriminate. Qed.

(** The controls on the screen, phase by phase. *)
Lemma rendered_In (s : State) (c : Control) :
  In c (rendered s) <->
  (gameState s = "ready" /\ c = StartButton)
  \/ (gameState s = "playing"
      /\ exists j, c = CardTile j /\ (j < length (cards s))%nat)
  \/ (gameState s = "complete" /\ c = NextButton).
Proof.
  unfold rendered. rewrite !in_app_iff, !In_when, !String.eqb_eq.
  assert (Htiles : In c (imap (fun index _ => CardTile index) (cards s))
                   <-> exists j, c = CardTile j /\ (j < length (cards s))%nat).
  { rewrite <- list_elem_of_In, elem_of_lookup_imap. split.
    - intros (k & card & -> & Hk). exists k. split; [reflexivity|].
      eapply lookup_lt_Some; exact Hk.
    - intros (k & -> & Hlt). apply lookup_lt_is_Some in Hlt as [card Hcard]. eauto. }
  rewrite Htiles. cbn [In]. intuition congruence.
Qed.

Lemma rendered_start (s : State) :
  In StartButton (rendered s) <-> gameState s = "ready".
Proof.
  rewrite rendered_In. split.
  - intros [[Hg _]|[(_ & j & Hc & _)|[_ Hc]]]; [exact Hg|discriminate|discriminate].
  - auto.
Qed.

Lemma rendered_next (s : State) :
  In NextButton (rendered s) <-> gameState s = "complete".
Proof.
  rewrite rendered_In. split.
  - intros [[_ Hc]|[(_ & j & Hc & _)|[Hg _]]]; [discriminate|discriminate|exact Hg].
  - auto.
Qed.

Lemma rendered_tile (s : State) (j : nat) :
  In (CardTile j) (rendered s) <->
  gameState s = "playing" /\ (j < length (cards s))%nat.
Proof.
  rewrite rendered_In. split.
  - intros [[_ Hc]|[(Hg & k & [= ->] & Hlt)|[_ Hc]]];
      [discriminate|auto|discriminate].
  - intros [Hg Hlt]. right. left. eauto.
Qed.

End Screen.

Section ScreenRuns.
Context `{Host}.

Lemma screen_safe_step (w : World) (e : Event) :
  offered w e -> screen_safe w -> screen_safe (step w e).
Proof.
  intros Hoff Hsafe.
  assert (Hfire : screen_safe (timerFires w)).
  { destruct Hsafe as [Hq|[Hr _]].
    - left. unfold timerFires. destruct Hq as [Hchk Hts]. rewrite Hts. split; auto.
    - left. apply resolving_fires. exact Hr. }
  destruct Hoff as [->|(c & Hc & Hclick)]; [exact Hfire|].
  destruct Hclick as [deck Hdeck|j|]; cbn [step].
  - apply rendered_start in Hc. left.
    destruct Hsafe as [[_ Hts]|[_ Hg]]; [|congruence].
    apply startGame_quiet. exact Hts.
  - apply rendered_tile in Hc as [Hg _].
    destruct Hsafe as [Hq|[Hr Hg']].
    2: { rewrite (resolving_blocks w _ Hr). right. auto. }
    destruct (handleCardClick_outcome (Z.of_nat j) w)
      as [?|?|clicked a b Hchk Hidx Hm Hf Hfilter|clicked Hchk Hidx Hm Hf Hlen];
      try (left; exact Hq).
    right. split; [apply resolving_scheduled; assumption|exact Hg].
  - destruct Hsafe as [[Hchk Hts]|[(Hchk & a & b & Hfilter & Hts) Hg]].
    + left. split; assumption.
    + right. split; [|exact Hg]. split; [exact Hchk|]. exists a, b. split; assumption.
Qed.

Lemma screen_safe_run (es : list Event) (w : World) :
  ui_run w es -> screen_safe w -> screen_safe (run w es).
Proof.
  revert w. induction es as [|e es IH]; intros w Hrun Hsafe; [exact Hsafe|].
  destruct Hrun as [Hoff Hrest].
  cbn [run foldl]. apply (IH (step w e)); auto using screen_safe_step.
Qed.

(** The phase the load effect leaves. *)
Lemma loadEffect_gameState (w : World) :
  gameState (state (loadEffect w)) =
  match sessionStorage w !! MEMORY_STORAGE_KEYS_GAME_STATE with
  | Some g => if truthy g then g else gameState (state w)
  | None => gameState (state w)
  end.
Proof.
  unfold loadEffect.
  destruct (sessionStorage w !! MEMORY_STORAGE_KEYS_GAME_STATE) as [g|];
    destruct (sessionStorage w !! MEMORY_STORAGE_KEYS_MATCHES) as [m|];
    destruct (sessionStorage w !! MEMORY_STORAGE_KEYS_CARDS) as [c|];
    try destruct (truthy g); try destruct (truthy m); try destruct (truthy c);
    try destruct (JSON_parse c); reflexivity.
Qed.

End ScreenRuns.

(** X9. Through the controls the component renders, from the mount on
    and whatever the storage held: a restart never happens while a
    resolution is pending (the start button is on the screen only when
    no timer is), at most one resolution is pending at any time, and
    the click handler of every tile on the screen returns normally, so
    the TypeError of an out-of-range click cannot occur. *)
Theorem screen_play_is_safe `{Host}
        (deck : list MemoryCard) (store : gmap string string) (es : list Event) :
  ui_run (mount deck store) es ->
  let w := run (mount deck store) es in
  (quiet w \/ resolving w)
  /\ (In StartButton (rendered (state w)) -> timers w = [])
  /\ (forall j, In (CardTile j) (rendered (state w)) ->
        exists w', handleCardClick (Z.of_nat j) w = Returned w').
Proof.
  intros Hrun. cbn zeta.
  assert (Hsafe := screen_safe_run es _ Hrun (or_introl (mount_quiet deck store))).
  set (w := run (mount deck store) es) in *. clearbody w.
  split; [destruct Hsafe as [?|[? _]]; auto|]. split.
  - intros Hstart. apply rendered_start in Hstart.
    destruct Hsafe as [[_ Hts]|[_ Hg]]; [exact Hts|congruence].
  - intros j Htile. apply rendered_tile in Htile as [_ Hlt].
    apply lookup_lt_is_Some in Hlt as [card Hcard].
    destruct (handleCardClick_outcome (Z.of_nat j) w) as [Hchk Hidx| | | ]; eauto.
    rewrite index_of_nat in Hidx. congruence.
Qed.

Lemma screen_play_is_safe_witness :
  quiet (run (H := browser) (mount (H := browser) unshuffledCards ∅)
           [StartGame (rev unshuffledCards); Click 0; Click 5; TimerFires])
  \/ resolving (run (H := browser) (mount (H := browser) unshuffledCards ∅)
                  [StartGame (rev unshuffledCards); Click 0; Click 5; TimerFires]).
Proof.
  apply (screen_play_is_safe (H := browser) unshuffledCards ∅
           [StartGame (rev unshuffledCards); Click 0; Click 5; TimerFires]).
  repeat split.
  - right. exists StartButton. split; [left; reflexivity|].
    constructor. apply Permutation_rev.
  - right. exists (CardTile 0). split; [apply rendered_tile; split; [reflexivity|vm_compute; lia]|].
    exact (onClick_tile 0).
  - right. exists (CardTile 5). split; [apply rendered_tile; split; [reflexivity|vm_compute; lia]|].
    exact (onClick_tile 5).
  - left. reflexivity.
Defined.

(** X10. The load effect takes the stored phase as it is.  When the
    entry holds a string other than the three phases, the mounted
    component has that string as its phase and renders no control at
    all, so nothing the user or a timer can do changes the world. *)
Theorem unknown_phase_shows_nothing `{Host}
        (deck : list MemoryCard) (store : gmap string string) (g : string)
        (es : list Event) :
  store !! MEMORY_STORAGE_KEYS_GAME_STATE = Some g ->
  truthy g = true ->
  g <> "ready" -> g <> "playing" -> g <> "complete" ->
  ui_run (mount deck store) es ->
  gameState (state (mount deck store)) = g
  /\ rendered (state (mount deck store)) = []
  /\ run (mount deck store) es = mount deck store.
Proof.
  intros Hstored Htruthy Hr Hp Hc Hrun.
  assert (Hg : gameState (state (mount deck store)) = g).
  { unfold mount. rewrite state_rerender. cbn [state with_storage].
    rewrite loadEffect_gameState. cbn [sessionStorage].
    rewrite Hstored, Htruthy. reflexivity. }
  assert (Hnone : rendered (state (mount deck store)) = []).
  { unfold rendered. rewrite Hg.
    destruct (String.eqb_spec g "ready"), (String.eqb_spec g "playing"),
      (String.eqb_spec g "complete"); try contradiction. reflexivity. }
  split; [exact Hg|]. split; [exact Hnone|].
  pose proof (mount_quiet deck store) as [_ Hts].
  set (w := mount deck store) in *. clearbody w.
  induction es as [|e es IH]; [reflexivity|].
  destruct Hrun as [Hoff Hrest].
  assert (Hstep : step w e = w).
  { destruct Hoff as [->|(c & Hin & _)].
    - cbn. unfold timerFires. rewrite Hts. reflexivity.
    - rewrite Hnone in Hin. destruct Hin. }
  cbn [run foldl]. rewrite Hstep in *. apply IH. exact Hrest.
Qed.

Lemma unknown_phase_shows_nothing_witness :
  rendered (state (mount (H := browser) unshuffledCards
                     {[ MEMORY_STORAGE_KEYS_GAME_STATE := "paused" ]})) = [].
Proof.
  refine (proj1 (proj2 (unknown_phase_shows_nothing (H := browser) unshuffledCards
            {[ MEMORY_STORAGE_KEYS_GAME_STATE := "paused" ]} "paused" [TimerFires]
            eq_refl eq_refl _ _ _ _))); try discriminate.
  split; [left; reflexivity|exact I].
Defined.

(** ** A reload in the middle of a guess *)

Section Stuck.
Context `{Host}.

Lemma stuck_like_step (w0 w : World) (e : Event) :
  is_play e = true -> stuck_like w0 w -> stuck_like w0 (step w e).
Proof.
  intros Hplay Hsame. pose proof Hsame as (Hq & Hup & Hm & Hg & Hflags & Hkeep).
  destruct e as [i| |deck|]; try discriminate; cbn [step].
  - destruct (handleCardClick_outcome i w)
      as [?|?|clicked a b Hchk Hidx Hmt Hf Hfilter|clicked Hchk Hidx Hmt Hf Hlen];
      try exact Hsame;
      apply index_Some in Hidx as [_ Hidx];
      assert (Hgain : faceUpCount (flipAt i clicked (state w))
                      = S (faceUpCount (cards (state w))))
        by (unfold faceUpCount, flipAt;
            apply (filter_length_insert_gain flippedUnmatched _ _ clicked); auto;
            unfold flippedUnmatched; cbn; rewrite ?Hf, ?Hmt; reflexivity).
    + exfalso. unfold faceUpCount in Hgain at 1. rewrite Hfilter in Hgain.
      cbn in Hgain. lia.
    + unfold flipped. split; [exact Hq|]. rewrite state_rerender. cbn [state with_state setCards cards matches gameState].
      split; [lia|]. split; [exact Hm|]. split; [exact Hg|]. split.
      * rewrite <- Hflags. unfold flipAt.
        apply (map_insert_same isMatched _ _ clicked); auto.
      * intros j card Hj Hcard. unfold flipAt.
        rewrite list_lookup_insert_ne; [auto|].
        intros <-. rewrite (Hkeep _ _ Hj Hcard) in Hidx. injection Hidx as ->.
        apply flippedUnmatched_true in Hcard as [Hcf _]. congruence.
  - unfold timerFires. destruct Hq as [Hchk Hts]. rewrite Hts. exact Hsame.
  - exact Hsame.
Qed.

End Stuck.

(** X11. [handleCardClick] schedules a resolution only when exactly two
    unmatched cards are face up.  So from a state with two or more of
    them face up and nothing pending (what a reload during the
    resolution delay restores), play never resolves them: through every
    sequence of clicks, timer firings and completions no timer is ever
    pending, [isChecking] stays clear, the match count, the phase and
    the matched flags stay what they were, and every card that was face
    up and unmatched stays so. *)
Theorem unresolved_guess_stays `{Host} (w : World) (es : list Event) :
  quiet w -> (2 <= faceUpCount (cards (state w)))%nat ->
  forallb is_play es = true ->
  let w' := run w es in
  timers w' = [] /\ isChecking (state w') = false
  /\ matches (state w') = matches (state w)
  /\ gameState (state w') = gameState (state w)
  /\ map isMatched (cards (state w')) = map isMatched (cards (state w))
  /\ forall j card, cards (state w) !! j = Some card ->
       flippedUnmatched card = true -> cards (state w') !! j = Some card.
Proof.
  intros Hq Hup Hplay. cbn zeta.
  assert (Hrun : forall es v, forallb is_play es = true ->
                   stuck_like w v -> stuck_like w (run v es)).
  { clear es Hplay. induction es as [|e es IH]; intros v Hplay Hv; [exact Hv|].
    cbn in Hplay. apply andb_prop in Hplay as [He Hes].
    cbn [run foldl]. apply (IH (step v e)); auto using stuck_like_step. }
  destruct (Hrun es w Hplay) as ([Hchk Hts] & _ & Hm & Hg & Hflags & Hkeep).
  { repeat split; auto; apply Hq. }
  repeat split; assumption.
Qed.

Lemma unresolved_guess_stays_witness :
  let w := mount (H := browser) (rev unshuffledCards) demo_reload_store in
  faceUpCount (cards (state w)) = 2%nat
  /\ timers (run (H := browser) w [Click 4; Click 5; TimerFires]) = [].
Proof.
  cbn zeta. split; [reflexivity|].
  apply (unresolved_guess_stays (H := browser)
           (mount (H := browser) (rev unshuffledCards) demo_reload_store)
           [Click 4; Click 5; TimerFires]).
  - split; reflexivity.
  - vm_compute. lia.
  - reflexivity.
Defined.

(** ** Saving and resuming *)

Section Resume.
Context `{Host}.

Lemma icons_restoreCard (l : list SerializableCard) :
  icons_follow_ids (map restoreCard l).
Proof.
  unfold icons_follow_ids. induction l as [|card l IH]; constructor; auto.
Qed.

Lemma icons_markMatched (l : list MemoryCard) :
  icons_follow_ids l -> icons_follow_ids (map markMatched l).
Proof.
  unfold icons_follow_ids. induction 1 as [|card l Hc _ IH]; constructor; auto.
  unfold markMatched. destruct (flippedUnmatched card); exact Hc.
Qed.

Lemma icons_flipBack (l : list MemoryCard) :
  icons_follow_ids l -> icons_follow_ids (map flipBack l).
Proof.
  unfold icons_follow_ids. induction 1 as [|card l Hc _ IH]; constructor; auto.
  unfold flipBack. destruct (flippedUnmatched card); exact Hc.
Qed.

Lemma icons_resolution (t : Timer) (s : State) :
  icons_follow_ids (timer_newCards t) -> icons_follow_ids (cards (resolution t s)).
Proof.
  intros Ht. destruct (timer_isMatch t) eqn:Hm.
  - rewrite resolution_match by exact Hm. apply icons_markMatched. exact Ht.
  - rewrite resolution_mismatch by exact Hm. apply icons_flipBack. exact Ht.
Qed.

Lemma icons_flipAt (i : Z) (clicked : MemoryCard) (s : State) :
  index (cards s) i = Some clicked ->
  icons_follow_ids (cards s) -> icons_follow_ids (flipAt i clicked s).
Proof.
  intros Hidx Hall. apply index_Some in Hidx as [_ Hidx].
  unfold flipAt. apply Forall_insert; [exact Hall|].
  assert (Hin : In clicked (cards s))
    by (apply list_elem_of_In, list_elem_of_lookup; eauto).
  exact (proj1 (List.Forall_forall _ _) Hall clicked Hin).
Qed.

Lemma icons_mount (deck : list MemoryCard) (store : gmap string string) :
  createCards deck -> icons_follow_ids (cards (state (mount deck store))).
Proof.
  intros Hdeck. apply createCards_icons in Hdeck.
  unfold mount. rewrite state_rerender. cbn [state with_storage].
  unfold loadEffect. cbn [sessionStorage state].
  destruct (store !! MEMORY_STORAGE_KEYS_GAME_STATE) as [g|];
    destruct (store !! MEMORY_STORAGE_KEYS_MATCHES) as [m|];
    destruct (store !! MEMORY_STORAGE_KEYS_CARDS) as [c|];
    try destruct (truthy g); try destruct (truthy m); try destruct (truthy c);
    try destruct (JSON_parse c); cbn; auto using icons_restoreCard.
Qed.

(** The icons are right in the state and in what the pending callbacks
    hold. *)
Lemma icons_step (w : World) (e : Event) :
  dealt e ->
  icons_follow_ids (cards (state w))
  /\ Forall (fun t => icons_follow_ids (timer_newCards t)) (timers w) ->
  icons_follow_ids (cards (state (step w e)))
  /\ Forall (fun t => icons_follow_ids (timer_newCards t)) (timers (step w e)).
Proof.
  intros He [Hcards Htimers]. destruct e as [i| |deck|]; cbn [step].
  - destruct (handleCardClick_outcome i w)
      as [?|?|clicked a b Hchk Hidx Hm Hf Hfilter|clicked Hchk Hidx Hm Hf Hlen];
      try (split; assumption);
      pose proof (icons_flipAt i clicked (state w) Hidx Hcards) as Hnew.
    + split; [exact Hnew|]. unfold scheduled. rewrite timers_rerender.
      cbn [timers with_timers]. apply Forall_app. split; [exact Htimers|].
      repeat constructor. exact Hnew.
    + split; [exact Hnew|exact Htimers].
  - unfold timerFires. destruct (timers w) as [|t rest] eqn:Hts.
    { split; [exact Hcards|]. rewrite ?Hts. constructor. }
    inversion Htimers as [|? ? Ht Hrest]; subst.
    rewrite state_rerender, timers_rerender. cbn [state with_state timers with_timers].
    split; [apply icons_resolution; exact Ht|exact Hrest].
  - split; [apply createCards_icons; exact He|].
    unfold startGame. rewrite timers_rerender. exact Htimers.
  - split; assumption.
Qed.

End Resume.

(** X12. Save, reload, resume.  On a host that reads back what it wrote
    for the state [s] (the number and the card array), when the phase
    of [s] is not the empty string and every card of [s] shows the icon
    of its id: the component mounted over the storage saved from [s]
    has the phase, the match count and the cards of [s], a clear
    [isChecking], no pending timer and an empty console, and its storage
    mirrors that state again. *)
Theorem saved_game_resumes `{Host}
        (s : State) (deck : list MemoryCard) (store : gmap string string) :
  truthy (gameState s) = true ->
  truthy (number_toString (matches s)) = true ->
  parseInt (number_toString (matches s)) = matches s ->
  truthy (JSON_stringify (map serializeCard (cards s))) = true ->
  JSON_parse (JSON_stringify (map serializeCard (cards s)))
    = Returned (map serializeCard (cards s)) ->
  icons_follow_ids (cards s) ->
  let w := mount deck (saveEffect s store) in
  state w = mkState (gameState s) (cards s) (matches s) false
  /\ timers w = [] /\ console w = []
  /\ synced w.
Proof.
  intros Hg Hm Hparse Hc Hjson Hicons. cbn zeta.
  split; [apply save_mount_reproduces; assumption|].
  split; [apply mount_quiet|]. split; [|unfold mount; apply synced_rerender].
  destruct (saveEffect_lookups s store) as (_ & _ & Lc & _).
  unfold mount, rerender, loadEffect. cbn [console sessionStorage with_storage].
  rewrite Lc, Hc, Hjson. reflexivity.
Qed.

Lemma saved_game_resumes_witness :
  state (mount (H := browser) (rev unshuffledCards)
           (saveEffect (H := browser) (state demo_one_up) ∅))
  = state demo_one_up.
Proof.
  refine (proj1 (saved_game_resumes (H := browser) (state demo_one_up)
                   (rev unshuffledCards) ∅ eq_refl eq_refl eq_refl eq_refl eq_refl _)).
  repeat constructor.
Defined.

(** X13. In every state the component can reach, every card shows the
    icon its id stands for: after the mount (whatever the storage held)
    and after any sequence of clicks, timer firings, completions and
    restarts with decks of [createCards()], also when a stale callback
    writes back an old deck. *)
Theorem icons_always_follow_ids `{Host}
        (deck : list MemoryCard) (store : gmap string string) (es : list Event) :
  createCards deck -> Forall dealt es ->
  icons_follow_ids (cards (state (run (mount deck store) es))).
Proof.
  intros Hdeck Hes.
  assert (Hrun : forall es w, Forall dealt es ->
            icons_follow_ids (cards (state w))
            /\ Forall (fun t => icons_follow_ids (timer_newCards t)) (timers w) ->
            icons_follow_ids (cards (state (run w es)))).
  { clear es Hes. induction es as [|e es IH]; intros w Hes Hw; [apply Hw|].
    inversion Hes as [|? ? He Hrest]; subst.
    cbn [run foldl]. apply (IH (step w e)); auto using icons_step. }
  apply Hrun; [exact Hes|]. split; [apply icons_mount; exact Hdeck|].
  pose proof (mount_quiet deck store) as [_ Hts]. rewrite Hts. constructor.
Qed.

Lemma icons_always_follow_ids_witness :
  icons_follow_ids
    (cards (state (run (H := browser)
                     (mount (H := browser) unshuffledCards demo_foreign_store)
                     [Click 1; StartGame (rev unshuffledCards); Click 0]))).
Proof.
  apply (icons_always_follow_ids (H := browser)).
  - apply Permutation_refl.
  - repeat constructor. apply Permutation_rev.
Defined.

(** X14. Missing entries.  An entry that is absent or holds the empty
    string is skipped by the load effect: when this is so for the
    phase, the match count and the card array, the mounted component is
    in its initial state ("ready", the deck it was created with, zero
    matches, [isChecking] clear), nothing is logged or pending, and the
    storage holds that initial state. *)
Theorem mount_without_snapshot `{Host}
        (deck : list MemoryCard) (store : gmap string string) :
  no_entry store MEMORY_STORAGE_KEYS_GAME_STATE ->
  no_entry store MEMORY_STORAGE_KEYS_MATCHES ->
  no_entry store MEMORY_STORAGE_KEYS_CARDS ->
  let w := mount deck store in
  state w = initialState deck
  /\ console w = [] /\ timers w = []
  /\ synced w.
Proof.
  intros Hg Hm Hc. cbn zeta.
  assert (Hload : loadEffect (mkWorld (initialState deck) [] store [] [])
                  = mkWorld (initialState deck) [] store [] []).
  { unfold loadEffect. cbn [sessionStorage state].
    destruct Hg as [-> | ->], Hm as [-> | ->], Hc as [-> | ->]; reflexivity. }
  unfold mount. rewrite Hload.
  repeat split; try reflexivity; apply saveEffect_lookups.
Qed.

Lemma mount_without_snapshot_witness :
  state (mount (H := browser) unshuffledCards
           {[ MEMORY_STORAGE_KEYS_CARDS := EmptyString ]})
  = initialState unshuffledCards.
Proof.
  apply (mount_without_snapshot (H := browser) unshuffledCards
           {[ MEMORY_STORAGE_KEYS_CARDS := EmptyString ]}).
  - left. reflexivity.
  - left. reflexivity.
  - right. reflexivity.
Defined.

(** ** The ids of a deck *)

Lemma pushPairs_ids_in_order (cfgs : list CardConfig) (i : Z) :
  map id (pushPairs cfgs i) = seqZ (i * 2) (2 * Z.of_nat (length cfgs)).
Proof.
  revert i. induction cfgs as [|cfg rest IH]; intros i; [reflexivity|].
  cbn [pushPairs pairOf app map id length]. rewrite IH.
  rewrite (seqZ_cons (i * 2)) by lia.
  rewrite (seqZ_cons (Z.succ (i * 2))) by lia.
  repeat f_equal; lia.
Qed.

(** X15. The ids of a deck [createCards()] returns are the numbers
    0 to 11, each exactly once: the ids are a permutation of
    [0; ...; 11] and no two cards share an id (the tiles use the id as
    their React key). *)
Theorem createCards_ids_distinct (deck : list MemoryCard) :
  createCards deck ->
  Permutation (seqZ 0 12) (map id deck) /\ NoDup (map id deck).
Proof.
  intros Hdeck.
  assert (Hperm : Permutation (seqZ 0 12) (map id deck)).
  { change (seqZ 0 12) with (seqZ (0 * 2) (2 * Z.of_nat (length CARD_CONFIGS))).
    rewrite <- pushPairs_ids_in_order. apply Permutation_map. exact Hdeck. }
  split; [exact Hperm|].
  rewrite <- Hperm. apply NoDup_seqZ.
Qed.

Lemma createCards_ids_distinct_witness :
  NoDup (map id (rev unshuffledCards)).
Proof.
  exact (proj2 (createCards_ids_distinct (rev unshuffledCards)
                  (Permutation_rev unshuffledCards))).
Defined.
